(** * merge_textures.py: tiled downscaling and mip-chain sizing

    A shallow embedding of the core of [merge_textures.py]:
    [HardwareManager.check_resources], [ChunkProcessor.safe_resize],
    [ChunkProcessor.merge], [MipmapProcessor.process] and
    [MipmapProcessor.process_image], together with the parts of Python,
    psutil and Pillow those functions rely on; further down, the startup
    checks ([Config.get_tool], [MipmapProcessor.validate_environment]),
    the file discovery ([MipmapProcessor.get_mip_files]) and the names of
    the temporary files.

    Conventions.
    - Python [int] is [Z]; Python [float] is IEEE binary64, taken from the
      standard library's [SpecFloat] at precision 53 (round to nearest,
      ties to even), so [/], [*], [math.sqrt] and [int()] round exactly as
      CPython does.
    - A raised exception is the [Raise] branch of [Py.result]; [try/except]
      is a [match] on it.
    - A Pillow image is its size, its pixel function and a [closed] flag
      ([Image.close] destroys the pixel core but keeps the size).  The
      Lanczos kernel is not re-implemented: the pixels of a resampled image
      are given by a parameter [lanczos].
    - psutil readings change between calls, so each call site reads its own
      field of a [probe]. *)

From Stdlib Require Import ZArith List Lia Bool.
From Stdlib Require Import Floats.SpecFloat.
From Stdlib Require Import Permutation.
From Stdlib Require String Ascii.
Import ListNotations.
Open Scope Z_scope.

(* ================================================================== *)
(** * Python: exceptions, floats, [range] *)

Module Py.

Inductive exn : Type :=
| ValueError
| RuntimeError
| ZeroDivisionError
| OverflowError
| FileNotFoundError.

Inductive result (A : Type) : Type :=
| Ok (a : A)
| Raise (e : exn).
Arguments Ok {A} a.
Arguments Raise {A} e.

Definition bind {A B : Type} (m : result A) (k : A -> result B) : result B :=
  match m with
  | Ok a => k a
  | Raise e => Raise e
  end.

Definition fmap {A B : Type} (f : A -> B) (m : result A) : result B :=
  match m with
  | Ok a => Ok (f a)
  | Raise e => Raise e
  end.

Definition float : Type := spec_float.

(** [float(n)].  Exact for [|n| < 2^53], which covers byte counts and pixel
    dimensions; larger integers are rounded to nearest. *)
Definition float_of_int (n : Z) : float := binary_normalize 53 1024 n 0 false.

(** [a / b] on two ints (true division). *)
Definition truediv (a b : Z) : result float :=
  if b =? 0 then Raise ZeroDivisionError
  else Ok (SFdiv 53 1024 (float_of_int a) (float_of_int b)).

(** [n * f] with [n] an int and [f] a float. *)
Definition mul_int_float (n : Z) (f : float) : float :=
  SFmul 53 1024 (float_of_int n) f.

(** [math.sqrt]: a negative argument is a math domain error. *)
Definition math_sqrt (f : float) : result float :=
  match f with
  | S754_finite true _ _ => Raise ValueError
  | S754_infinity true => Raise ValueError
  | _ => Ok (SFsqrt 53 1024 f)
  end.

(** [int(f)]: truncation toward zero. *)
Definition int (f : float) : result Z :=
  match f with
  | S754_zero _ => Ok 0
  | S754_infinity _ => Raise OverflowError
  | S754_nan => Raise ValueError
  | S754_finite s m e =>
      let a := if 0 <=? e then Zpos m * 2 ^ e else Zpos m / 2 ^ (- e) in
      Ok (if s then - a else a)
  end.

(** [round(f)]: nearest integer, ties to even. *)
Definition round (f : float) : result Z :=
  match f with
  | S754_zero _ => Ok 0
  | S754_infinity _ => Raise OverflowError
  | S754_nan => Raise ValueError
  | S754_finite s m e =>
      let a :=
        if 0 <=? e then Zpos m * 2 ^ e
        else
          let d := 2 ^ (- e) in
          let q := Zpos m / d in
          let r := Zpos m mod d in
          if 2 * r <? d then q
          else if d <? 2 * r then q + 1
          else if Z.even q then q else q + 1 in
      Ok (if s then - a else a)
  end.

(** [f > n] with [f] a float and [n] an int. *)
Definition float_gt_int (f : float) (n : Z) : bool :=
  SFltb (float_of_int n) f.

(** [range(0, stop, step)] for a positive [step]: [0, step, 2*step, ...]
    below [stop]; its length is [ceil(stop / step)]. *)
Definition range (stop step : Z) : list Z :=
  map (fun i => Z.of_nat i * step)
      (seq 0 (Z.to_nat ((stop + step - 1) / step))).

(** [l[-3:]] *)
Definition last3 {A : Type} (l : list A) : list A :=
  skipn (length l - 3) l.

End Py.

Import Py.

Notation "x <- m ;; k" := (bind m (fun x => k))
  (at level 61, m at next level, right associativity).
Notation "' p <- m ;; k" := (bind m (fun p => k))
  (at level 61, p pattern, m at next level, right associativity).

(* ================================================================== *)
(** * Pillow: the [Image] operations the program calls *)

Module Image.

Definition pixel : Type := (Z * Z * Z)%type.

(** The value [Image.new('RGB', size)] fills the buffer with. *)
Definition black : pixel := (0, 0, 0).

Definition box : Type := (Z * Z * Z * Z)%type.

Record image : Type := mkImage {
  width : Z;
  height : Z;
  getpixel : Z -> Z -> pixel;
  closed : bool
}.

Definition size (im : image) : Z * Z := (width im, height im).

Definition size_eqb (a b : Z * Z) : bool :=
  (fst a =? fst b) && (snd a =? snd b).

Definition in_box (b : box) (x y : Z) : bool :=
  let '(x0, y0, x1, y1) := b in
  (x0 <=? x) && (x <? x1) && (y0 <=? y) && (y <? y1).

(** [Image.new('RGB', size)]: a negative side is a ValueError. *)
Definition new (sz : Z * Z) : result image :=
  if (fst sz <? 0) || (snd sz <? 0) then Raise ValueError
  else Ok (mkImage (fst sz) (snd sz) (fun _ _ => black) false).

(** [im.close()]: the core is destroyed, the size stays readable. *)
Definition close (im : image) : image :=
  mkImage (width im) (height im) (getpixel im) true.

(** [im.crop(box)]: loading a closed image is a ValueError; so is a box
    whose right or lower edge lies before its left or upper edge.  Pixels
    outside the source are black. *)
Definition crop (im : image) (b : box) : result image :=
  let '(x0, y0, x1, y1) := b in
  if closed im then Raise ValueError
  else if (x1 <? x0) || (y1 <? y0) then Raise ValueError
  else Ok (mkImage (x1 - x0) (y1 - y0)
             (fun x y =>
                if in_box (0, 0, width im, height im) (x0 + x) (y0 + y)
                then getpixel im (x0 + x) (y0 + y) else black)
             false).

(** [dst.paste(im, box)] with a 4-tuple box: the pasted image must be
    loadable and of the size of the box. *)
Definition paste (dst im : image) (b : box) : result image :=
  let '(x0, y0, x1, y1) := b in
  if closed im then Raise ValueError
  else if negb (size_eqb (size im) (x1 - x0, y1 - y0)) then Raise ValueError
  else Ok (mkImage (width dst) (height dst)
             (fun x y =>
                if in_box b x y then getpixel im (x - x0) (y - y0)
                else getpixel dst x y)
             (closed dst)).

Section Resize.

(** Pixel [(x, y)] of the Lanczos resampling of an image to a size. *)
Variable lanczos : image -> Z * Z -> Z -> Z -> pixel.

(** [im.resize(size, Image.LANCZOS)]: the image is loaded first (a closed
    image is a ValueError), an unchanged size returns a copy, and a side
    below 1 is a ValueError ("height and width must be > 0"). *)
Definition resize (im : image) (sz : Z * Z) : result image :=
  if closed im then Raise ValueError
  else if size_eqb (size im) sz then Ok im
  else if (fst sz <? 1) || (snd sz <? 1) then Raise ValueError
  else Ok (mkImage (fst sz) (snd sz) (lanczos im sz) false).

End Resize.

End Image.

Import Image.

(* ================================================================== *)
(** * psutil readings *)

Module psutil.

Record probe : Type := mkProbe {
  (** [virtual_memory().available] as read by [check_resources] *)
  check_available : Z;
  (** [disk_usage('/').free] as read by [check_resources] *)
  disk_free : Z;
  (** [virtual_memory().available] as read for the chunk size *)
  plan_available : Z;
  (** [virtual_memory().percent] as read after the k-th tile *)
  percent : nat -> float
}.

End psutil.

Import psutil.

(* ================================================================== *)
(** * HardwareManager *)

Module HardwareManager.

Definition check_resources (p : probe) : result unit :=
  let memory := check_available p >? 1 * 1024 * 1024 * 1024 in
  let disk := disk_free p >? 2 * 1024 * 1024 * 1024 in
  if memory && disk then Ok tt else Raise RuntimeError.

End HardwareManager.

(* ================================================================== *)
(** * ChunkProcessor *)

Module ChunkProcessor.

Section WithKernel.

Variable lanczos : image -> Z * Z -> Z -> Z -> pixel.

(** ** merge *)

Record cursor : Type := mkCursor {
  merged : image;
  x_pos : Z;
  y_pos : Z;
  current_row_height : Z
}.

(** What one loop iteration did with its tile (a ghost trace). *)
Inductive event : Type :=
| Pasted (b : box)
| Skipped
| Dropped.

Inductive flow : Type := Next | Break.

(** The row-wrap test at the head of the loop body. *)
Definition wrap (c : cursor) (tile : image) : cursor :=
  if x_pos c + width tile >? width (merged c)
  then mkCursor (merged c) 0 (y_pos c + current_row_height c) 0
  else c.

Definition paste_box (c : cursor) (tile : image) : box :=
  (x_pos c, y_pos c,
   Z.min (x_pos c + width tile) (width (merged c)),
   Z.min (y_pos c + height tile) (height (merged c))).

(** The body of the [try]: resize the tile to the paste box, paste it. *)
Definition paste_tile (c : cursor) (tile : image) : result image :=
  let '(x0, y0, x1, y1) := paste_box c tile in
  resized <- resize lanczos tile (x1 - x0, y1 - y0) ;;
  paste (merged c) resized (paste_box c tile).

(** One iteration of [for tile in tiles]. *)
Definition merge_tile (c : cursor) (tile : image)
  : result (cursor * flow * event) :=
  let c := wrap c tile in
  if y_pos c >=? height (merged c) then Ok (c, Break, Dropped)
  else
    match paste_tile c tile with
    | Raise ValueError => Ok (c, Next, Skipped)
    | Raise e => Raise e
    | Ok m =>
        let c' := mkCursor m (x_pos c + width tile) (y_pos c)
                    (Z.max (current_row_height c) (height tile)) in
        Ok (c',
            if y_pos c' + current_row_height c' >? height (merged c')
            then Break else Next,
            Pasted (paste_box c tile))
    end.

Fixpoint merge_loop (c : cursor) (tiles : list image)
  : result (cursor * list event) :=
  match tiles with
  | [] => Ok (c, [])
  | tile :: rest =>
      '(c', fl, ev) <- merge_tile c tile ;;
      match fl with
      | Break => Ok (c', [ev])
      | Next =>
          '(c'', evs) <- merge_loop c' rest ;;
          Ok (c'', ev :: evs)
      end
  end.

Definition merge_run (tiles : list image) (target_size : Z * Z)
  : result (cursor * list event) :=
  m <- new target_size ;;
  merge_loop (mkCursor m 0 0 0) tiles.

Definition merge (tiles : list image) (target_size : Z * Z) : result image :=
  '(c, _) <- merge_run tiles target_size ;;
  Ok (merged c).

(** The boxes [merge] pasted into, in order. *)
Definition pasted_boxes (tiles : list image) (target_size : Z * Z) : list box :=
  match merge_run tiles target_size with
  | Ok (_, evs) =>
      flat_map (fun ev => match ev with Pasted b => [b] | _ => [] end) evs
  | Raise _ => []
  end.

(** ** safe_resize *)

Definition clamp_chunk (k : Z) : Z := Z.max 256 (Z.min 2048 (k * 128)).

Definition chunk_size (available W H : Z) : result Z :=
  let base_size := W * H * 3 in
  mem_factor <- truediv available (base_size * 2) ;;
  root <- math_sqrt mem_factor ;;
  k <- int root ;;
  Ok (clamp_chunk k).

Definition tiles (W H chunk : Z) : list box :=
  flat_map
    (fun y =>
       map (fun x => (x, y, Z.min (x + chunk) W, Z.min (y + chunk) H))
           (range W chunk))
    (range H chunk).

Definition scaled_size (cropped : image) (scale_w scale_h : float)
  : result (Z * Z) :=
  w <- int (mul_int_float (width cropped) scale_w) ;;
  h <- int (mul_int_float (height cropped) scale_h) ;;
  Ok (Z.max 1 w, Z.max 1 h).

(** Crop one tile and scale the crop (the head of the tile loop's body). *)
Definition resample_tile (img : image) (tile : box) (scale_w scale_h : float)
  : result image :=
  cropped <- crop img tile ;;
  sz <- scaled_size cropped scale_w scale_h ;;
  resize lanczos cropped sz.

(** The memory guard of the tile loop: the pending list and the tile just
    scaled, as they are when [processed.append(scaled)] runs. *)
Definition memory_guard (pct : float) (processed : list image) (scaled : image)
  : list image * image :=
  if float_gt_int pct 85
  then (last3 processed, close scaled)
  else (processed, scaled).

(** [for tile in tiles], from the [k]-th tile on. *)
Fixpoint process_tiles (p : probe) (img : image) (scale_w scale_h : float)
    (k : nat) (plan : list box) (processed : list image)
  : result (list image) :=
  match plan with
  | [] => Ok processed
  | tile :: rest =>
      scaled <- resample_tile img tile scale_w scale_h ;;
      let '(processed, scaled) := memory_guard (percent p k) processed scaled in
      process_tiles p img scale_w scale_h (S k) rest (processed ++ [scaled])
  end.

(** The pending tiles handed to [merge]. *)
Definition pending_tiles (p : probe) (img : image) (target_size : Z * Z)
  : result (list image) :=
  _ <- HardwareManager.check_resources p ;;
  chunk <- chunk_size (plan_available p) (width img) (height img) ;;
  scale_w <- truediv (fst target_size) (width img) ;;
  scale_h <- truediv (snd target_size) (height img) ;;
  process_tiles p img scale_w scale_h 0
    (tiles (width img) (height img) chunk) [].

(** The body of the [try] in [safe_resize]. *)
Definition tiled_resize (p : probe) (img : image) (target_size : Z * Z)
  : result image :=
  processed <- pending_tiles p img target_size ;;
  merge processed target_size.

Definition safe_resize (p : probe) (img : image) (target_size : Z * Z)
  : result image :=
  match tiled_resize p img target_size with
  | Ok r => Ok r
  | Raise _ => resize lanczos img target_size
  end.

End WithKernel.

End ChunkProcessor.

Import ChunkProcessor.

(* ================================================================== *)
(** * MipmapProcessor *)

Module MipmapProcessor.

Section WithKernel.

Variable lanczos : image -> Z * Z -> Z -> Z -> pixel.

(** One entry of the chain: the size asked for, the image found on disk
    for the level, the image handed on, and whether the size check of
    [process_image] printed its warning. *)
Record level : Type := mkLevel {
  target : Z * Z;
  source : image;
  output : image;
  warned : bool
}.

Definition halve (sz : Z * Z) : Z * Z := (fst sz / 2, snd sz / 2).

Definition process_image (p : probe) (img : image) (target_size : Z * Z)
  : result (image * bool) :=
  if size_eqb (size img) target_size then Ok (img, false)
  else
    let warn := negb (fst target_size =? width img / 2)
                || negb (snd target_size =? height img / 2) in
    resized <- safe_resize lanczos p img target_size ;;
    Ok (resized, warn).

(** [for idx in range(1, len(files))], from level [idx] on; [files] are
    the images of the remaining levels, [probes idx] the readings while
    level [idx] is processed. *)
Fixpoint process_levels (probes : nat -> probe) (idx : nat)
    (current_size : Z * Z) (files : list image) : result (list level) :=
  match files with
  | [] => Ok []
  | img :: rest =>
      let current_size := halve current_size in
      '(out, warn) <- process_image (probes idx) img current_size ;;
      later <- process_levels probes (S idx) current_size rest ;;
      Ok (mkLevel current_size img out warn :: later)
  end.

(** [process], up to the hand-over to [generate_dds]; [get_mip_files]
    raises FileNotFoundError with fewer than two files. *)
Definition process (probes : nat -> probe) (files : list image)
  : result (list level) :=
  match files with
  | base :: (_ :: _) as rest =>
      let base_size := size base in
      later <- process_levels probes 1 base_size rest ;;
      Ok (mkLevel base_size base base false :: later)
  | _ => Raise FileNotFoundError
  end.

End WithKernel.

End MipmapProcessor.

Import MipmapProcessor.

(* ================================================================== *)
(** * Sample inputs and the properties as the specification words them *)

Module Samples.

(** A stand-in resampling kernel (nearest neighbour), used wherever a
    statement is evaluated on concrete images. *)
Definition nearest : image -> Z * Z -> Z -> Z -> pixel :=
  fun im sz x y => getpixel im (x * width im / fst sz) (y * height im / snd sz).

Definition white : pixel := (255, 255, 255).

Definition solid (w h : Z) (c : pixel) : image :=
  mkImage w h (fun _ _ => c) false.

Definition GiB : Z := 1024 * 1024 * 1024.

(** Plenty of memory and disk, 40% of memory in use. *)
Definition calm : probe :=
  mkProbe (4 * GiB) (10 * GiB) (4 * GiB) (fun _ => float_of_int 40).

(** Plenty of memory and disk at the resource check, 90% in use
    whenever the tile loop looks. *)
Definition pressured : probe :=
  mkProbe (4 * GiB) (10 * GiB) (4 * GiB) (fun _ => float_of_int 90).

(** Half a GiB of memory available. *)
Definition starved : probe :=
  mkProbe (GiB / 2) (10 * GiB) (GiB / 2) (fun _ => float_of_int 40).

End Samples.

(** An image as [Image.open(path).convert('RGB')] returns it. *)
Definition loaded (im : image) : Prop :=
  closed im = false /\ 0 < width im /\ 0 < height im.

(** Same size and the same pixel at every position inside it. *)
Definition same_pixels (a b : image) : Prop :=
  size a = size b /\
  forall x y, 0 <= x < width a -> 0 <= y < height a ->
              getpixel a x y = getpixel b x y.

(** Two boxes share no position. *)
Definition disjoint (a b : box) : Prop :=
  forall x y, in_box a x y = true -> in_box b x y = false.

(** Row-major order of two tiles by their upper-left corners. *)
Definition row_major (a b : box) : Prop :=
  let '(ax, ay, _, _) := a in
  let '(bx, by_, _, _) := b in
  ay < by_ \/ (ay = by_ /\ ax < bx).

(** No position outside the boxes pasted so far has been written. *)
Definition untouched (evs : list event) (x y : Z) : Prop :=
  forall b, In (Pasted b) evs -> in_box b x y = false.

(** Box [a] ends before box [b] starts: it lies in an earlier row of
    tiles, or in the same row further left. *)
Definition separated (a b : box) : Prop :=
  let '(ax, ay, ax1, ay1) := a in
  let '(bx, by_, _, _) := b in
  (ay1 <= by_ /\ ay < by_) \/ (ay = by_ /\ ax1 <= bx /\ ax < bx).

(** The cursor update the specification gives for every tile processed,
    skipped or not: [before] is the cursor after the wrap test. *)
Definition cursor_advanced (before after : cursor) (tile : image) : Prop :=
  x_pos after = x_pos before + width tile /\
  current_row_height after =
    Z.max (current_row_height before) (height tile).

(** The tile size the specification gives for a crop of the given size:
    the products rounded to the nearest integer, at least 1. *)
Definition rounded_size (crop_width crop_height : Z) (scale_x scale_y : float)
  : result (Z * Z) :=
  w <- round (mul_int_float crop_width scale_x) ;;
  h <- round (mul_int_float crop_height scale_y) ;;
  Ok (Z.max 1 w, Z.max 1 h).


(** Each level of [chain], in order, asks for half of what the level
    before it asked for, [prev] being asked for before the first. *)
Fixpoint halved_from (prev : Z * Z) (chain : list level) : Prop :=
  match chain with
  | [] => True
  | l :: rest => target l = halve prev /\ halved_from (target l) rest
  end.

(** A Pillow image never has a negative side. *)
Definition valid_size (im : image) : Prop := 0 <= width im /\ 0 <= height im.

(** The cursor never moves left of or above the origin. *)
Definition cursor_ok (c : cursor) : Prop :=
  0 <= x_pos c /\ 0 <= y_pos c /\ 0 <= current_row_height c.

(** Box [b] lies behind the cursor: above the cursor's row, or inside the
    row's height and to the left of the cursor. *)
Definition behind (c : cursor) (b : box) : Prop :=
  let '(_, _, x1, y1) := b in
  y1 <= y_pos c \/
  (y1 <= y_pos c + current_row_height c /\ x1 <= x_pos c).

(** Box [b] lies inside an image of size [sz]. *)
Definition inside (sz : Z * Z) (b : box) : Prop :=
  let '(x0, y0, x1, y1) := b in
  0 <= x0 <= x1 /\ x1 <= fst sz /\ 0 <= y0 <= y1 /\ y1 <= snd sz.

(** The boxes of a trace, in order. *)
Definition boxes_of (evs : list event) : list box :=
  flat_map (fun ev => match ev with Pasted b => [b] | _ => [] end) evs.

(** Box [b] is a non-empty box inside a [W] x [H] image. *)
Definition proper (W H : Z) (b : box) : Prop :=
  let '(x0, y0, x1, y1) := b in
  0 <= x0 < x1 /\ x1 <= W /\ 0 <= y0 < y1 /\ y1 <= H.

(** Box [b'] comes right after box [b] in a row-major walk of an image of
    width [W]: next to it in the same row, or first in the row below. *)
Definition follows (W : Z) (b b' : box) : Prop :=
  let '(x0, y0, x1, y1) := b in
  let '(x0', y0', x1', y1') := b' in
  (x0' = x1 /\ y0' = y0 /\ y1' = y1) \/
  (x1 = W /\ x0' = 0 /\ y0' = y1).

Fixpoint chained (W : Z) (b : box) (l : list box) : Prop :=
  match l with
  | [] => True
  | b' :: rest => follows W b b' /\ chained W b' rest
  end.

(** The image [crop] returns for an open image and a box whose edges are
    in order. *)
Definition crop_at (img : image) (b : box) : image :=
  let '(x0, y0, x1, y1) := b in
  mkImage (x1 - x0) (y1 - y0)
    (fun x y =>
       if in_box (0, 0, width img, height img) (x0 + x) (y0 + y)
       then getpixel img (x0 + x) (y0 + y) else black)
    false.

(** After its wrap test the cursor stands on the upper-left corner of
    [b], in a row no taller than [b]. *)
Definition ready (c : cursor) (b : box) (tile : image) : Prop :=
  let '(x0, y0, x1, y1) := b in
  x_pos (wrap c tile) = x0 /\
  y_pos (wrap c tile) = y0 /\
  0 <= current_row_height (wrap c tile) <= y1 - y0.

(** The tile of the plan whose upper-left corner is [(x, y)]. *)
Definition tile_at (W H chunk x y : Z) : box :=
  (x, y, Z.min (x + chunk) W, Z.min (y + chunk) H).

(** The tiles of the row at [y] from the [k]-th on, [n] of them. *)
Definition row_from (W H chunk y : Z) (k n : nat) : list box :=
  map (fun x => tile_at W H chunk x y)
      (map (fun i => Z.of_nat i * chunk) (seq k n)).

(** The rows of the plan from the [j]-th on, [m] of them, [nx] tiles a row. *)
Definition plan_from (W H chunk : Z) (nx j m : nat) : list box :=
  flat_map (fun y => row_from W H chunk y 0 nx)
           (map (fun i => Z.of_nat i * chunk) (seq j m)).

(** The tile loop without its trimming: every tile of the plan as the
    loop leaves it (closed when the memory guard fires on it), none
    dropped.  A reference to say which tiles the loop keeps. *)
Fixpoint scaled_tiles (lanczos : image -> Z * Z -> Z -> Z -> pixel)
    (p : probe) (img : image) (scale_w scale_h : float)
    (k : nat) (plan : list box) : result (list image) :=
  match plan with
  | [] => Ok []
  | tile :: rest =>
      scaled <- resample_tile lanczos img tile scale_w scale_h ;;
      later <- scaled_tiles lanczos p img scale_w scale_h (S k) rest ;;
      Ok (snd (memory_guard (percent p k) [] scaled) :: later)
  end.

(** Each image of [files], in order, has half the size of the one before
    it, [prev] being the size before the first. *)
Fixpoint sized_from (prev : Z * Z) (files : list image) : Prop :=
  match files with
  | [] => True
  | f :: rest => size f = halve prev /\ sized_from (size f) rest
  end.

(* ================================================================== *)
(** * Startup checks and file discovery *)

Module Config.

Import String.
Local Open Scope string_scope.

(** The [tool_map] of [Config.get_tool] (the second definition, which
    replaces the first): tool name, then [platform.system()]. *)
Definition tool_map : list (string * list (string * string)) :=
  [("texassemble", [("Windows", "texassemble.exe"); ("Linux", "texassemble")]);
   ("texconv", [("Windows", "texconv.exe"); ("Linux", "texconv")])].

(** [d[key]]; [None] is a KeyError. *)
Fixpoint lookup {A : Type} (key : string) (d : list (string * A)) : option A :=
  match d with
  | [] => None
  | (k, v) :: rest => if String.eqb key k then Some v else lookup key rest
  end.

(** The file name of a tool inside the tools directory. *)
Definition get_tool (system name : string) : option string :=
  match lookup name tool_map with
  | Some by_system => lookup system by_system
  | None => None
  end.

(** Which message the FileNotFoundError of [validate_environment] carries. *)
Inductive missing : Type :=
| InputDirectory
| Texassemble
| Texconv.

Inductive outcome : Type :=
| Validated
| KeyError
| FileNotFound (what : missing).

(** [for condition, message in checks: if not condition: raise ...] *)
Fixpoint first_failure (checks : list (bool * missing)) : outcome :=
  match checks with
  | [] => Validated
  | (condition, message) :: rest =>
      if condition then first_failure rest else FileNotFound message
  end.

(** [MipmapProcessor.validate_environment]: the list of checks is built
    before the loop runs, so both tool paths are looked up first. *)
Definition validate_environment (system : string) (input_dir_exists : bool)
    (tool_exists : string -> bool) : outcome :=
  match get_tool system "texassemble", get_tool system "texconv" with
  | Some texassemble, Some texconv =>
      first_failure
        [(input_dir_exists, InputDirectory);
         (tool_exists texassemble, Texassemble);
         (tool_exists texconv, Texconv)]
  | _, _ => KeyError
  end.

(** Values of [platform.system()]. *)
Definition Windows : string := "Windows".
Definition Linux : string := "Linux".
Definition Darwin : string := "Darwin".

End Config.

Module Files.

Import Ascii String.
Local Open Scope list_scope.

(** A file name, character by character. *)
Definition name : Type := list ascii.

Definition str (s : string) : name := list_ascii_of_string s.

Definition name_eqb (a b : name) : bool :=
  if list_eq_dec ascii_dec a b then true else false.

(** [fnmatch] against a pattern [pre*suf] with one star, case-sensitive
    as on POSIX. *)
Definition fnmatch_star (pre suf nm : name) : bool :=
  (List.length pre + List.length suf <=? List.length nm)%nat
  && name_eqb (firstn (List.length pre) nm) pre
  && name_eqb (skipn (List.length nm - List.length suf) nm) suf.

Definition p_prefix : name := str "p".
Definition temp_prefix : name := str "temp_".
Definition png_suffix : name := str ".png".

(** [glob("p*.png")] *)
Definition is_mip_file (nm : name) : bool :=
  fnmatch_star p_prefix png_suffix nm.

(** [glob("temp_*.png")], the pattern of the final cleanup. *)
Definition is_swept (nm : name) : bool :=
  fnmatch_star temp_prefix png_suffix nm.

(** [f"temp_{path.name}"] *)
Definition temp_name (nm : name) : name := temp_prefix ++ nm.

(** [name.rfind('.')] *)
Fixpoint rfind_dot (nm : name) : option nat :=
  match nm with
  | [] => None
  | c :: rest =>
      match rfind_dot rest with
      | Some i => Some (S i)
      | None => if Ascii.eqb c "."%char then Some 0%nat else None
      end
  end.

(** [PurePath.stem] *)
Definition stem (nm : name) : name :=
  match rfind_dot nm with
  | Some i =>
      if (0 <? i)%nat && (i <? List.length nm - 1)%nat then firstn i nm else nm
  | None => nm
  end.

Section GetMipFiles.

(** [int(s)] on a str; [None] is its ValueError. *)
Variable int_of_str : name -> option Z.

(** [int(x.stem[1:])] *)
Definition index_of (nm : name) : result Z :=
  match int_of_str (skipn 1 (stem nm)) with
  | Some n => Ok n
  | None => Raise ValueError
  end.

(** [sorted] computes the key of every element, in order, before it
    sorts. *)
Fixpoint decorate (l : list name) : result (list (Z * name)) :=
  match l with
  | [] => Ok []
  | nm :: rest =>
      k <- index_of nm ;;
      later <- decorate rest ;;
      Ok ((k, nm) :: later)
  end.




End GetMipFiles.





Definition sample_name : name := str "p10.png".


End Files.

(** Exactly 1 GiB of memory available, plenty of disk. *)
Definition at_floor : probe :=
  mkProbe Samples.GiB (10 * Samples.GiB) Samples.GiB
    (fun _ => float_of_int 40).

(* ================================================================== *)
(** * Pillow and Python facts *)

Section ImageFacts.

Variable lanczos : image -> Z * Z -> Z -> Z -> pixel.

Lemma size_eqb_eq (a b : Z * Z) : size_eqb a b = true <-> a = b.
Proof.
  destruct a as [a1 a2], b as [b1 b2]; unfold size_eqb; simpl.
  rewrite andb_true_iff, !Z.eqb_eq.
  split; [intros [-> ->]; reflexivity | intros E; inversion E; auto].
Qed.

Lemma size_eqb_refl (a : Z * Z) : size_eqb a a = true.
Proof. apply size_eqb_eq; reflexivity. Qed.

Lemma new_ok (w h : Z) :
  0 <= w -> 0 <= h ->
  new (w, h) = Ok (mkImage w h (fun _ _ => black) false).
Proof.
  intros Hw Hh; unfold new; simpl.
  destruct (Z.ltb_spec w 0); [lia|].
  destruct (Z.ltb_spec h 0); [lia|]; reflexivity.
Qed.

Lemma new_size (sz : Z * Z) (m : image) :
  new sz = Ok m ->
  size m = sz /\ closed m = false /\ forall x y, getpixel m x y = black.
Proof.
  unfold new; destruct (_ || _); [discriminate|].
  intros E; injection E as <-; destruct sz; repeat split.
Qed.

Lemma resize_size (im : image) (sz : Z * Z) (r : image) :
  resize lanczos im sz = Ok r -> size r = sz /\ closed r = false.
Proof.
  unfold resize.
  destruct (closed im) eqn:Hc; [discriminate|].
  destruct (size_eqb (size im) sz) eqn:He.
  - intros E; injection E as <-; apply size_eqb_eq in He; auto.
  - destruct (_ || _); [discriminate|].
    intros E; injection E as <-; destruct sz; split; reflexivity.
Qed.

Lemma resize_raises (im : image) (sz : Z * Z) (e : exn) :
  resize lanczos im sz = Raise e -> e = ValueError.
Proof.
  unfold resize.
  destruct (closed im); [congruence|].
  destruct (size_eqb _ _); [discriminate|].
  destruct (_ || _); [congruence | discriminate].
Qed.

Lemma resize_same (im : image) :
  closed im = false -> resize lanczos im (size im) = Ok im.
Proof.
  intros Hc; unfold resize; rewrite Hc, size_eqb_refl; reflexivity.
Qed.

Lemma resize_loaded (im : image) (sz : Z * Z) :
  closed im = false -> 0 < fst sz -> 0 < snd sz ->
  exists r, resize lanczos im sz = Ok r.
Proof.
  intros Hc Hw Hh; unfold resize; rewrite Hc.
  destruct (size_eqb _ _); [eauto|].
  destruct (Z.ltb_spec (fst sz) 1); [lia|].
  destruct (Z.ltb_spec (snd sz) 1); [lia|]; simpl; eauto.
Qed.

Lemma paste_ok (dst im : image) (b : box) (r : image) :
  paste dst im b = Ok r ->
  size r = size dst /\ closed r = closed dst /\
  forall x y, getpixel r x y =
              if in_box b x y
              then getpixel im (x - fst (fst (fst b))) (y - snd (fst (fst b)))
              else getpixel dst x y.
Proof.
  destruct b as [[[x0 y0] x1] y1]; unfold paste.
  destruct (closed im); [discriminate|].
  destruct (negb _); [discriminate|].
  intros E; injection E as <-; repeat split.
Qed.

Lemma paste_raises (dst im : image) (b : box) (e : exn) :
  paste dst im b = Raise e -> e = ValueError.
Proof.
  destruct b as [[[x0 y0] x1] y1]; unfold paste.
  destruct (closed im); [congruence|].
  destruct (negb _); [congruence | discriminate].
Qed.

End ImageFacts.

(* ================================================================== *)
(** * merge: one iteration, then the loop *)

Section MergeFacts.

Variable lanczos : image -> Z * Z -> Z -> Z -> pixel.

Lemma wrap_merged (c : cursor) (tile : image) :
  merged (wrap c tile) = merged c.
Proof. unfold wrap; destruct (_ >? _); reflexivity. Qed.

Lemma paste_tile_raises (c : cursor) (tile : image) (e : exn) :
  paste_tile lanczos c tile = Raise e -> e = ValueError.
Proof.
  unfold paste_tile, paste_box, bind.
  destruct (resize lanczos tile _) as [r|e'] eqn:Hr.
  - apply paste_raises.
  - intros E; injection E as <-; eapply resize_raises; eauto.
Qed.

Lemma paste_tile_ok (c : cursor) (tile m : image) :
  paste_tile lanczos c tile = Ok m ->
  size m = size (merged c) /\ closed m = closed (merged c) /\
  forall x y, in_box (paste_box c tile) x y = false ->
              getpixel m x y = getpixel (merged c) x y.
Proof.
  unfold paste_tile, bind.
  destruct (paste_box c tile) as [[[x0 y0] x1] y1] eqn:Hb.
  destruct (resize lanczos tile _) as [r|e']; [|discriminate].
  intros Hp; apply paste_ok in Hp as (Hs & Hc & Hpx).
  repeat split; auto.
  intros x y Hout; rewrite Hpx, Hout; reflexivity.
Qed.

(** The three ways one iteration can go. *)
Lemma merge_tile_cases (c : cursor) (tile : image) :
  let w := wrap c tile in
  (height (merged w) <= y_pos w /\
   merge_tile lanczos c tile = Ok (w, Break, Dropped))
  \/
  (y_pos w < height (merged w) /\
   paste_tile lanczos w tile = Raise ValueError /\
   merge_tile lanczos c tile = Ok (w, Next, Skipped))
  \/
  (y_pos w < height (merged w) /\
   exists m fl,
     paste_tile lanczos w tile = Ok m /\
     merge_tile lanczos c tile =
       Ok (mkCursor m (x_pos w + width tile) (y_pos w)
             (Z.max (current_row_height w) (height tile)),
           fl, Pasted (paste_box w tile))).
Proof.
  intros w; unfold merge_tile; fold w.
  destruct (Z.geb_spec (y_pos w) (height (merged w))) as [Hy|Hy].
  - left; split; [lia | reflexivity].
  - right.
    destruct (paste_tile lanczos w tile) as [m|e] eqn:Hp.
    + right; split; [lia|]; eexists; eexists; split; reflexivity.
    + left; apply paste_tile_raises in Hp as Hv; subst e.
      split; [lia|]; split; reflexivity.
Qed.

Lemma merge_tile_spec (c : cursor) (tile : image) :
  exists c' fl ev,
    merge_tile lanczos c tile = Ok (c', fl, ev) /\
    size (merged c') = size (merged c) /\
    closed (merged c') = closed (merged c) /\
    forall x y, untouched [ev] x y ->
                getpixel (merged c') x y = getpixel (merged c) x y.
Proof.
  destruct (merge_tile_cases c tile) as [[_ E]|[(_ & _ & E)|(_ & m & fl & Hp & E)]];
    rewrite E.
  - do 3 eexists; split; [reflexivity|]; rewrite wrap_merged; auto.
  - do 3 eexists; split; [reflexivity|]; rewrite wrap_merged; auto.
  - apply paste_tile_ok in Hp as (Hs & Hc & Hpx); rewrite wrap_merged in *.
    do 3 eexists; split; [reflexivity|]; simpl; repeat split; auto.
    intros x y Hu; apply Hpx, Hu; left; reflexivity.
Qed.

(** The loop never raises, keeps the size of the destination and only
    writes inside the boxes it pasted. *)
Lemma merge_loop_spec (tiles : list image) : forall c,
  exists c' evs,
    merge_loop lanczos c tiles = Ok (c', evs) /\
    size (merged c') = size (merged c) /\
    closed (merged c') = closed (merged c) /\
    forall x y, untouched evs x y ->
                getpixel (merged c') x y = getpixel (merged c) x y.
Proof.
  induction tiles as [|tile rest IH]; intros c; simpl.
  - exists c, []; auto.
  - destruct (merge_tile_spec c tile) as (c1 & fl & ev & E & Hs & Hc & Hpx).
    rewrite E; simpl; destruct fl.
    + destruct (IH c1) as (c2 & evs & E2 & Hs2 & Hc2 & Hpx2).
      rewrite E2; simpl.
      exists c2, (ev :: evs); split; [reflexivity|].
      repeat split; try congruence.
      intros x y Hu; rewrite Hpx2, Hpx; auto.
      * intros b [Hb|[]]; apply Hu; left; exact Hb.
      * intros b Hb; apply Hu; right; exact Hb.
    + exists c1, [ev]; auto.
Qed.

Lemma merge_run_spec (tiles : list image) (w h : Z) :
  0 <= w -> 0 <= h ->
  exists c evs,
    merge_run lanczos tiles (w, h) = Ok (c, evs) /\
    size (merged c) = (w, h) /\
    closed (merged c) = false /\
    forall x y, untouched evs x y -> getpixel (merged c) x y = black.
Proof.
  intros Hw Hh; unfold merge_run; rewrite (new_ok w h Hw Hh); simpl.
  destruct (merge_loop_spec tiles
              (mkCursor (mkImage w h (fun _ _ => black) false) 0 0 0))
    as (c & evs & E & Hs & Hc & Hpx).
  exists c, evs; repeat split; auto.
Qed.

Lemma pasted_boxes_events (tiles : list image) (sz : Z * Z)
    (c : cursor) (evs : list event) (b : box) :
  merge_run lanczos tiles sz = Ok (c, evs) ->
  In (Pasted b) evs -> In b (pasted_boxes lanczos tiles sz).
Proof.
  intros E Hb; unfold pasted_boxes; rewrite E.
  apply in_flat_map; exists (Pasted b); split; [exact Hb | left; reflexivity].
Qed.

(** Whatever [merge] returns has the size asked for. *)
Lemma merge_size (tiles : list image) (sz : Z * Z) (out : image) :
  merge lanczos tiles sz = Ok out -> size out = sz /\ closed out = false.
Proof.
  unfold merge, merge_run, bind.
  destruct (new sz) as [m|e] eqn:Hn; [|discriminate].
  apply new_size in Hn as (Hs & Hc & _).
  destruct (merge_loop_spec tiles (mkCursor m 0 0 0))
    as (c & evs & E & Hs' & Hc' & _).
  rewrite E; intros Eo; injection Eo as <-; simpl in *; split; congruence.
Qed.

(** C3. For every non-empty tile sequence and every positive target size,
    [merge] returns an image of exactly the target size, however many tiles
    were skipped or dropped, and every position outside the boxes it pasted
    into still holds the value the buffer was created with. *)
Theorem merge_output_has_target_size
    (tiles : list image) (target_size : Z * Z) :
  tiles <> [] -> 0 < fst target_size -> 0 < snd target_size ->
  exists out,
    merge lanczos tiles target_size = Ok out /\
    size out = target_size /\
    forall x y,
      (forall b, In b (pasted_boxes lanczos tiles target_size) ->
                 in_box b x y = false) ->
      getpixel out x y = black.
Proof.
  destruct target_size as [w h]; simpl; intros _ Hw Hh.
  destruct (merge_run_spec tiles w h) as (c & evs & E & Hs & _ & Hpx);
    [lia | lia |].
  exists (merged c); unfold merge; rewrite E; simpl.
  repeat split; auto.
  intros x y Hout; apply Hpx.
  intros b Hb; apply Hout; eapply pasted_boxes_events; eauto.
Qed.

(** C10. For every positive target size, [merge] of the empty tile
    sequence raises nothing and returns an image of exactly the target
    size whose every pixel is the initial (black) value. *)
Theorem merge_empty_is_black (target_size : Z * Z) :
  0 < fst target_size -> 0 < snd target_size ->
  exists out,
    merge lanczos [] target_size = Ok out /\
    size out = target_size /\
    forall x y, getpixel out x y = black.
Proof.
  destruct target_size as [w h]; simpl; intros Hw Hh.
  unfold merge, merge_run; rewrite new_ok by lia; simpl.
  eexists; repeat split.
Qed.

End MergeFacts.

(* ================================================================== *)
(** * merge: where the cursor goes *)

Section MergeCursor.

Variable lanczos : image -> Z * Z -> Z -> Z -> pixel.

Lemma wrap_fits (c : cursor) (tile : image) :
  x_pos c + width tile <= width (merged c) -> wrap c tile = c.
Proof.
  intros H; unfold wrap.
  destruct (Z.gtb_spec (x_pos c + width tile) (width (merged c))); [lia | reflexivity].
Qed.

(** C9. Merging the one-tile sequence made of a tile whose size is the
    target size returns an image of that size with, at every position,
    the pixel of the tile. *)
Theorem merge_single_full_tile (tile : image) :
  closed tile = false -> 0 <= width tile -> 0 <= height tile ->
  exists out, merge lanczos [tile] (size tile) = Ok out /\ same_pixels out tile.
Proof.
  intros Hc Hw Hh.
  unfold merge, merge_run, size; rewrite new_ok by lia.
  cbn [bind merge_loop].
  set (c0 := mkCursor _ 0 0 0).
  unfold merge_tile.
  rewrite (wrap_fits c0 tile) by (simpl; lia).
  cbn [y_pos merged height c0].
  destruct (Z.geb_spec 0 (height tile)) as [Hz|Hpos].
  - cbn. eexists; split; [reflexivity|].
    split; [reflexivity|]. cbn. intros; lia.
  - assert (Hp : paste_tile lanczos c0 tile =
                 Ok (mkImage (width tile) (height tile)
                       (fun x y =>
                          if in_box (0, 0, width tile, height tile) x y
                          then getpixel tile (x - 0) (y - 0) else black)
                       false)).
    { unfold paste_tile, paste_box; cbn [x_pos y_pos merged width height c0].
      rewrite !Z.add_0_l, !Z.min_id, !Z.sub_0_r.
      change (width tile, height tile) with (size tile).
      rewrite resize_same by exact Hc.
      cbn [bind]. unfold paste. rewrite Hc.
      rewrite !Z.sub_0_r.
      change (width tile, height tile) with (size tile).
      rewrite size_eqb_refl. reflexivity. }
    rewrite Hp. cbn.
    destruct (_ >? _); cbn.
    all: eexists; (split; [reflexivity|]); (split; [reflexivity|]); cbn.
    all: intros x y Hx Hy.
    all: destruct (Z.leb_spec 0 x); [|lia]; destruct (Z.ltb_spec x (width tile)); [|lia].
    all: destruct (Z.leb_spec 0 y); [|lia]; destruct (Z.ltb_spec y (height tile)); [|lia].
    all: cbn; rewrite !Z.sub_0_r; reflexivity.
Qed.

(** C8 (amended). While the cursor's row is inside the destination: a
    tile whose paste raises is skipped, the loop goes on with the remaining
    tiles, and the cursor stays where the wrap test left it ([x_pos] and
    [current_row_height] are not advanced); a tile that is pasted moves
    [x_pos] on by its own width and raises [current_row_height] to the
    maximum of its old value and the tile's height. *)
Theorem merge_tile_skip_or_advance
    (c : cursor) (tile : image) (rest : list image) :
  y_pos (wrap c tile) < height (merged (wrap c tile)) ->
  (forall e, paste_tile lanczos (wrap c tile) tile = Raise e ->
     merge_tile lanczos c tile = Ok (wrap c tile, Next, Skipped) /\
     merge_loop lanczos c (tile :: rest) =
       ('(c', evs) <- merge_loop lanczos (wrap c tile) rest ;;
        Ok (c', Skipped :: evs)))
  /\
  (forall m, paste_tile lanczos (wrap c tile) tile = Ok m ->
     exists c' fl,
       merge_tile lanczos c tile =
         Ok (c', fl, Pasted (paste_box (wrap c tile) tile)) /\
       merged c' = m /\
       y_pos c' = y_pos (wrap c tile) /\
       cursor_advanced (wrap c tile) c' tile).
Proof.
  intros Hy; split.
  - intros e He.
    assert (E : merge_tile lanczos c tile = Ok (wrap c tile, Next, Skipped)).
    { destruct (merge_tile_cases lanczos c tile)
        as [[Hd _]|[(_ & _ & E)|(_ & m & fl & Hp & _)]];
        [lia | exact E | congruence]. }
    split; [exact E|].
    cbn [merge_loop]; rewrite E; reflexivity.
  - intros m Hm.
    destruct (merge_tile_cases lanczos c tile)
      as [[Hd _]|[(_ & Hr & _)|(_ & m' & fl & Hp & E)]];
      [lia | congruence |].
    assert (m' = m) by congruence; subst m'.
    do 2 eexists; split; [exact E|].
    repeat split.
Qed.

End MergeCursor.

(* ================================================================== *)
(** * The tile plan *)

Lemma FOP_impl {A : Type} (R S : A -> A -> Prop) (l : list A) :
  (forall a b, R a b -> S a b) -> ForallOrdPairs R l -> ForallOrdPairs S l.
Proof.
  intros HRS; induction 1 as [|a l Ha _ IH]; constructor; auto.
  eapply Forall_impl; [apply HRS | exact Ha].
Qed.

Lemma FOP_app {A : Type} (R : A -> A -> Prop) (l1 l2 : list A) :
  ForallOrdPairs R l1 -> ForallOrdPairs R l2 ->
  (forall a b, In a l1 -> In b l2 -> R a b) ->
  ForallOrdPairs R (l1 ++ l2).
Proof.
  induction 1 as [|a l Ha _ IH]; intros H2 Hx; simpl; auto.
  constructor.
  - apply Forall_app; split; [exact Ha|].
    apply Forall_forall; intros b Hb; apply Hx; [left; reflexivity | exact Hb].
  - apply IH; auto; intros; apply Hx; [right|]; assumption.
Qed.

Lemma FOP_map {A B : Type} (R : B -> B -> Prop) (f : A -> B) (l : list A) :
  ForallOrdPairs (fun a b => R (f a) (f b)) l -> ForallOrdPairs R (map f l).
Proof.
  induction 1 as [|a l Ha _ IH]; simpl; constructor; auto.
  apply Forall_map; exact Ha.
Qed.

Lemma FOP_flat_map {A B : Type} (S : A -> A -> Prop) (R : B -> B -> Prop)
    (f : A -> list B) (l : list A) :
  ForallOrdPairs S l ->
  (forall a, ForallOrdPairs R (f a)) ->
  (forall a b u v, S a b -> In u (f a) -> In v (f b) -> R u v) ->
  ForallOrdPairs R (flat_map f l).
Proof.
  intros Hl Hrow Hcross; induction Hl as [|a l Ha _ IH]; simpl; [constructor|].
  apply FOP_app; auto.
  intros u v Hu Hv; apply in_flat_map in Hv as (b & Hb & Hv).
  rewrite Forall_forall in Ha; eauto.
Qed.

Lemma range_In (stop step v : Z) :
  0 < step ->
  In v (range stop step) <-> exists i, 0 <= i /\ v = i * step /\ v < stop.
Proof.
  intros Hs; unfold range; rewrite in_map_iff.
  set (q := (stop + step - 1) / step).
  assert (Hq1 : step * q <= stop + step - 1) by (apply Z.mul_div_le; lia).
  assert (Hq2 : stop + step - 1 < step * (q + 1)).
  { pose proof (Z.mul_succ_div_gt (stop + step - 1) step Hs); fold q in H; lia. }
  split.
  - intros (i & <- & Hi); apply in_seq in Hi.
    exists (Z.of_nat i); repeat split; [lia|]; nia.
  - intros (i & Hi & -> & Hlt).
    exists (Z.to_nat i); split; [rewrite Z2Nat.id by lia; reflexivity|].
    apply in_seq; split; [lia|]; simpl.
    assert (i < q) by nia. lia.
Qed.

Lemma range_spaced (stop step : Z) :
  0 < step -> ForallOrdPairs (fun a b => a + step <= b) (range stop step).
Proof.
  intros Hs; unfold range; generalize (Z.to_nat ((stop + step - 1) / step)).
  intros n; generalize 0%nat; induction n as [|n IH]; intros s; simpl;
    constructor; [|apply IH].
  apply Forall_forall; intros b Hb.
  apply in_map_iff in Hb as (j & <- & Hj); apply in_seq in Hj; nia.
Qed.

Lemma range_single (stop step : Z) :
  0 < stop -> stop <= step -> range stop step = [0].
Proof.
  intros H0 H1; unfold range.
  replace ((stop + step - 1) / step) with 1; [reflexivity|].
  apply Z.div_unique with (r := stop - 1); lia.
Qed.

Lemma separated_row_major (a b : box) : separated a b -> row_major a b.
Proof.
  destruct a as [[[ax ay] ax1] ay1], b as [[[bx by_] bx1] by1]; simpl; lia.
Qed.

Lemma in_box_iff (b : box) (x y : Z) :
  in_box b x y = true <->
  fst (fst (fst b)) <= x < snd (fst b) /\ snd (fst (fst b)) <= y < snd b.
Proof.
  destruct b as [[[x0 y0] x1] y1]; unfold in_box; simpl.
  rewrite !andb_true_iff, !Z.leb_le, !Z.ltb_lt; lia.
Qed.

Lemma separated_disjoint (a b : box) : separated a b -> disjoint a b.
Proof.
  intros Hs x y Ha; destruct (in_box b x y) eqn:Hb; [|reflexivity].
  apply in_box_iff in Ha, Hb.
  destruct a as [[[ax ay] ax1] ay1], b as [[[bx by_] bx1] by1]; simpl in *; lia.
Qed.

Lemma tiles_In (W H chunk : Z) (t : box) :
  In t (tiles W H chunk) <->
  exists x y, In x (range W chunk) /\ In y (range H chunk) /\
              t = (x, y, Z.min (x + chunk) W, Z.min (y + chunk) H).
Proof.
  unfold tiles; rewrite in_flat_map; split.
  - intros (y & Hy & Ht); apply in_map_iff in Ht as (x & <- & Hx); eauto.
  - intros (x & y & Hx & Hy & ->); exists y; split; [exact Hy|].
    apply in_map_iff; eauto.
Qed.

Lemma tiles_separated (W H chunk : Z) :
  0 < chunk -> ForallOrdPairs separated (tiles W H chunk).
Proof.
  intros Hc; unfold tiles.
  apply FOP_flat_map with (S := fun a b => a + chunk <= b).
  - apply range_spaced; exact Hc.
  - intros y; apply FOP_map.
    eapply FOP_impl; [|apply range_spaced; exact Hc].
    intros a b Hab; cbv beta iota delta [separated] in *; lia.
  - intros y1 y2 u v Hy Hu Hv.
    apply in_map_iff in Hu as (x1 & <- & _), Hv as (x2 & <- & _).
    cbv beta iota delta [separated] in *; lia.
Qed.

Lemma tiles_cover (W H chunk x y : Z) :
  0 < chunk ->
  (exists t, In t (tiles W H chunk) /\ in_box t x y = true) <->
  (0 <= x < W /\ 0 <= y < H).
Proof.
  intros Hc; split.
  - intros (t & Ht & Hin); apply tiles_In in Ht as (tx & ty & Hx & Hy & ->).
    apply range_In in Hx as (i & Hi & -> & Hxi), Hy as (j & Hj & -> & Hyj);
      try exact Hc.
    apply in_box_iff in Hin; simpl in Hin; nia.
  - intros [Hx Hy].
    pose proof (Z.mul_div_le x chunk Hc).
    pose proof (Z.mul_succ_div_gt x chunk Hc).
    pose proof (Z.mul_div_le y chunk Hc).
    pose proof (Z.mul_succ_div_gt y chunk Hc).
    assert (0 <= x / chunk) by (apply Z.div_pos; lia).
    assert (0 <= y / chunk) by (apply Z.div_pos; lia).
    exists (x / chunk * chunk, y / chunk * chunk,
            Z.min (x / chunk * chunk + chunk) W,
            Z.min (y / chunk * chunk + chunk) H); split.
    + apply tiles_In; do 2 eexists; split; [|split; [|reflexivity]];
        apply range_In; try exact Hc; eexists; (split; [|split; [reflexivity|]]); lia.
    + apply in_box_iff; simpl; lia.
Qed.

Lemma tiles_single (W H chunk : Z) :
  0 < W -> 0 < H -> W <= chunk -> H <= chunk ->
  tiles W H chunk = [(0, 0, W, H)].
Proof.
  intros HW HH HWc HHc; unfold tiles.
  rewrite !range_single by lia; simpl.
  rewrite !Z.min_r by lia; reflexivity.
Qed.

Lemma chunk_size_bounds (available W H chunk : Z) :
  chunk_size available W H = Ok chunk -> 256 <= chunk <= 2048.
Proof.
  unfold chunk_size, bind.
  destruct (truediv _ _); [|discriminate].
  destruct (math_sqrt _); [|discriminate].
  destruct (int _); [|discriminate].
  intros E; injection E as <-; unfold clamp_chunk; lia.
Qed.

(** C4. For every image with positive width and height and every
    available-memory reading, the chunk size lies between 256 and 2048 and
    the tile plan is in row-major order, its tiles are pairwise disjoint, a
    position lies in some tile exactly when it lies in the image, and an
    image no larger than one chunk gets the single tile that is the whole
    image. *)
Theorem tile_plan_partitions_image (available W H chunk : Z) :
  0 < W -> 0 < H ->
  chunk_size available W H = Ok chunk ->
  let plan := tiles W H chunk in
  256 <= chunk <= 2048 /\
  ForallOrdPairs row_major plan /\
  ForallOrdPairs disjoint plan /\
  (forall x y, (exists t, In t plan /\ in_box t x y = true) <->
               (0 <= x < W /\ 0 <= y < H)) /\
  (W <= chunk -> H <= chunk -> plan = [(0, 0, W, H)]).
Proof.
  intros HW HH Hc plan; apply chunk_size_bounds in Hc.
  assert (Hpos : 0 < chunk) by lia.
  pose proof (tiles_separated W H chunk Hpos) as Hsep.
  split; [exact Hc|]; split; [|split; [|split]].
  - eapply FOP_impl; [apply separated_row_major | exact Hsep].
  - eapply FOP_impl; [apply separated_disjoint | exact Hsep].
  - intros x y; apply tiles_cover; exact Hpos.
  - intros; apply tiles_single; lia.
Qed.

(* ================================================================== *)
(** * safe_resize: resource check, tile loop, fallback *)

Section SafeResizeFacts.

Variable lanczos : image -> Z * Z -> Z -> Z -> pixel.

Lemma check_resources_ok (p : probe) :
  1 * 1024 * 1024 * 1024 < check_available p ->
  2 * 1024 * 1024 * 1024 < disk_free p ->
  HardwareManager.check_resources p = Ok tt.
Proof.
  intros Hm Hd; unfold HardwareManager.check_resources.
  destruct (Z.gtb_spec (check_available p) (1 * 1024 * 1024 * 1024)); [|lia].
  destruct (Z.gtb_spec (disk_free p) (2 * 1024 * 1024 * 1024)); [|lia].
  reflexivity.
Qed.

Lemma check_resources_raises (p : probe) :
  check_available p <= 1 * 1024 * 1024 * 1024 \/
  disk_free p <= 2 * 1024 * 1024 * 1024 ->
  HardwareManager.check_resources p = Raise RuntimeError.
Proof.
  intros Hlow; unfold HardwareManager.check_resources.
  destruct (Z.gtb_spec (check_available p) (1 * 1024 * 1024 * 1024));
    destruct (Z.gtb_spec (disk_free p) (2 * 1024 * 1024 * 1024));
    simpl; try reflexivity; lia.
Qed.

(** C2 (amended). With available memory at or below 1 GiB, or free disk
    space at or below 2 GiB, [check_resources] raises; no tile is produced;
    [safe_resize] catches the error and returns what the whole-image resize
    returns, so for a loaded source image and a target size with positive
    sides the level is produced and nothing is raised.  With both readings
    above their floors [check_resources] returns normally. *)
Theorem check_resources_failure_is_caught
    (p : probe) (img : image) (target_size : Z * Z) :
  (check_available p <= 1 * 1024 * 1024 * 1024 \/
   disk_free p <= 2 * 1024 * 1024 * 1024 ->
   HardwareManager.check_resources p = Raise RuntimeError /\
   pending_tiles lanczos p img target_size = Raise RuntimeError /\
   tiled_resize lanczos p img target_size = Raise RuntimeError /\
   safe_resize lanczos p img target_size = resize lanczos img target_size /\
   (loaded img -> 0 < fst target_size -> 0 < snd target_size ->
    exists out,
      safe_resize lanczos p img target_size = Ok out /\
      size out = target_size /\ closed out = false))
  /\
  (1 * 1024 * 1024 * 1024 < check_available p /\
   2 * 1024 * 1024 * 1024 < disk_free p ->
   HardwareManager.check_resources p = Ok tt).
Proof.
  split.
  - intros Hlow; pose proof (check_resources_raises p Hlow) as E.
    assert (Es : safe_resize lanczos p img target_size =
                 resize lanczos img target_size)
      by (unfold safe_resize, tiled_resize, pending_tiles; rewrite E;
          reflexivity).
    split; [exact E|].
    split; [unfold pending_tiles; rewrite E; reflexivity|].
    split; [unfold tiled_resize, pending_tiles; rewrite E; reflexivity|].
    split; [exact Es|].
    intros (Hc & _ & _) Hw Hh.
    destruct (resize_loaded lanczos img target_size Hc Hw Hh) as [out Ho].
    exists out; rewrite Es; split; [exact Ho|].
    eapply resize_size; eauto.
  - intros [Hm Hd]; apply check_resources_ok; assumption.
Qed.

Lemma safe_resize_size (p : probe) (img : image) (sz : Z * Z) (out : image) :
  safe_resize lanczos p img sz = Ok out -> size out = sz /\ closed out = false.
Proof.
  unfold safe_resize, tiled_resize, bind.
  destruct (pending_tiles lanczos p img sz) as [tl|e].
  - destruct (merge lanczos tl sz) as [r|e] eqn:Hm.
    + intros E; injection E as <-; eapply merge_size; eauto.
    + apply resize_size.
  - apply resize_size.
Qed.

Lemma safe_resize_total (p : probe) (img : image) (sz : Z * Z) :
  loaded img -> 0 < fst sz -> 0 < snd sz ->
  exists out, safe_resize lanczos p img sz = Ok out.
Proof.
  intros (Hc & _ & _) Hw Hh; unfold safe_resize.
  destruct (tiled_resize lanczos p img sz); [eauto|].
  apply resize_loaded; assumption.
Qed.

(** C5 (amended). When the tiling pipeline of [safe_resize] raises,
    whatever the error, [safe_resize] returns what the whole-image Lanczos
    resize of the source to the target size returns: for a loaded source
    and a target size with positive sides the level is produced and
    nothing is raised; for a target size with a side below 1 that is not
    the source's own size the resize raises ValueError, and that error
    propagates. *)
Theorem tiling_error_falls_back_to_whole_resize
    (p : probe) (img : image) (target_size : Z * Z) (e : exn) :
  tiled_resize lanczos p img target_size = Raise e ->
  safe_resize lanczos p img target_size = resize lanczos img target_size /\
  (loaded img -> 0 < fst target_size -> 0 < snd target_size ->
   exists out,
     safe_resize lanczos p img target_size = Ok out /\
     size out = target_size) /\
  (size img <> target_size ->
   fst target_size < 1 \/ snd target_size < 1 ->
   safe_resize lanczos p img target_size = Raise ValueError).
Proof.
  intros He.
  assert (E : safe_resize lanczos p img target_size =
              resize lanczos img target_size)
    by (unfold safe_resize; rewrite He; reflexivity).
  split; [exact E|]; split.
  - intros (Hc & _ & _) Hw Hh.
    destruct (resize_loaded lanczos img target_size Hc Hw Hh) as [out Ho].
    exists out; rewrite E; split; [exact Ho|].
    eapply resize_size; eauto.
  - intros Hne Hside; rewrite E; unfold resize.
    destruct (closed img); [reflexivity|].
    destruct (size_eqb (size img) target_size) eqn:Hs;
      [apply size_eqb_eq in Hs; contradiction|].
    destruct (Z.ltb_spec (fst target_size) 1);
      destruct (Z.ltb_spec (snd target_size) 1); simpl; try reflexivity; lia.
Qed.

Lemma crop_ok (img : image) (b : box) (cropped : image) :
  crop img b = Ok cropped -> closed cropped = false.
Proof.
  destruct b as [[[x0 y0] x1] y1]; unfold crop.
  destruct (closed img); [discriminate|].
  destruct (_ || _); [discriminate|].
  intros E; injection E as <-; reflexivity.
Qed.

(** C6 (amended). A crop of width [cw] and height [ch] is resampled to
    exactly [(max 1 (int (cw * scale_w)), max 1 (int (ch * scale_h)))],
    [int] truncating the float product toward zero; both sides are at
    least 1. *)
Theorem resample_tile_truncates
    (img : image) (tile : box) (scale_w scale_h : float)
    (cropped : image) (w h : Z) :
  crop img tile = Ok cropped ->
  int (mul_int_float (width cropped) scale_w) = Ok w ->
  int (mul_int_float (height cropped) scale_h) = Ok h ->
  exists out,
    resample_tile lanczos img tile scale_w scale_h = Ok out /\
    size out = (Z.max 1 w, Z.max 1 h) /\
    1 <= width out /\ 1 <= height out.
Proof.
  intros Hcrop Hw Hh.
  unfold resample_tile, scaled_size; rewrite Hcrop; cbn [bind].
  rewrite Hw, Hh; cbn [bind].
  destruct (resize_loaded lanczos cropped (Z.max 1 w, Z.max 1 h))
    as [out Ho]; [eapply crop_ok; eauto | simpl; lia | simpl; lia |].
  exists out; split; [exact Ho|].
  apply resize_size in Ho as [Hs _].
  split; [exact Hs|].
  unfold size in Hs; injection Hs as -> ->; lia.
Qed.

(** Under memory pressure the tile loop cuts the pending list to its last
    three entries, closes the tile it has just scaled and appends it. *)
Lemma process_tiles_under_pressure
    (p : probe) (img : image) (scale_w scale_h : float) (k : nat)
    (tile : box) (rest : list box) (processed : list image) (scaled : image) :
  resample_tile lanczos img tile scale_w scale_h = Ok scaled ->
  float_gt_int (percent p k) 85 = true ->
  process_tiles lanczos p img scale_w scale_h k (tile :: rest) processed =
  process_tiles lanczos p img scale_w scale_h (S k) rest
    (last3 processed ++ [close scaled]).
Proof.
  intros Hs Hp; cbn [process_tiles]; rewrite Hs; cbn [bind].
  unfold memory_guard; rewrite Hp; reflexivity.
Qed.

End SafeResizeFacts.

(* ================================================================== *)
(** * process: the sizes asked for along the chain *)

Section ProcessFacts.

Variable lanczos : image -> Z * Z -> Z -> Z -> pixel.

Lemma process_image_size
    (p : probe) (img : image) (sz : Z * Z) (out : image) (w : bool) :
  process_image lanczos p img sz = Ok (out, w) -> size out = sz.
Proof.
  unfold process_image, bind.
  destruct (size_eqb (size img) sz) eqn:He.
  - intros E; injection E as <- _; apply size_eqb_eq; exact He.
  - destruct (safe_resize lanczos p img sz) as [r|e] eqn:Hr; [|discriminate].
    intros E; injection E as <- _; eapply safe_resize_size; eauto.
Qed.

Lemma process_image_total (p : probe) (img : image) (sz : Z * Z) :
  loaded img -> 0 < fst sz -> 0 < snd sz ->
  exists out w, process_image lanczos p img sz = Ok (out, w).
Proof.
  intros Hl Hw Hh; unfold process_image.
  destruct (size_eqb (size img) sz); [eauto|].
  destruct (safe_resize_total lanczos p img sz Hl Hw Hh) as [out ->].
  simpl; eauto.
Qed.

Lemma process_levels_spec (probes : nat -> probe) (files : list image) :
  forall idx cur lv,
    process_levels lanczos probes idx cur files = Ok lv ->
    map source lv = files /\
    Forall (fun l => size (output l) = target l) lv /\
    halved_from cur lv.
Proof.
  induction files as [|img rest IH]; intros idx cur lv; cbn [process_levels].
  - intros E; injection E as <-; simpl; auto.
  - unfold bind at 1.
    destruct (process_image lanczos (probes idx) img (halve cur))
      as [[out w]|e] eqn:Hi; [|discriminate].
    unfold bind.
    destruct (process_levels lanczos probes (S idx) (halve cur) rest)
      as [later|e] eqn:Hl; [|discriminate].
    intros E; injection E as <-.
    apply IH in Hl as (Hsrc & Hout & Hlink).
    apply process_image_size in Hi.
    simpl; repeat split; auto.
    f_equal; exact Hsrc.
Qed.





End ProcessFacts.

(* ================================================================== *)
(** * Closed tiles *)

Section ClosedTiles.

Variable lanczos : image -> Z * Z -> Z -> Z -> pixel.

Lemma fmap_Ok {A B : Type} (f : A -> B) (m : result A) (b : B) :
  fmap f m = Ok b -> exists a, m = Ok a /\ f a = b.
Proof.
  destruct m as [a|e]; simpl; [|discriminate].
  intros E; injection E as <-; eauto.
Qed.

Lemma paste_tile_closed (c : cursor) (tile : image) :
  closed tile = true -> paste_tile lanczos c tile = Raise ValueError.
Proof.
  intros Hc; unfold paste_tile.
  destruct (paste_box c tile) as [[[x0 y0] x1] y1].
  unfold resize; rewrite Hc; reflexivity.
Qed.

(** A closed tile is never pasted: the destination stays as it is. *)
Lemma merge_loop_closed (tiles : list image) :
  Forall (fun t => closed t = true) tiles ->
  forall c, exists c' evs,
    merge_loop lanczos c tiles = Ok (c', evs) /\ merged c' = merged c.
Proof.
  induction 1 as [|tile rest Hc _ IH]; intros c; cbn [merge_loop].
  - eauto.
  - destruct (merge_tile_cases lanczos c tile)
      as [[_ E]|[(_ & _ & E)|(_ & m & fl & Hp & _)]].
    + rewrite E; cbn [bind]; do 2 eexists; split; [reflexivity|].
      apply wrap_merged.
    + rewrite E; cbn [bind].
      destruct (IH (wrap c tile)) as (c' & evs & E' & Hm).
      rewrite E'; cbn [bind]; do 2 eexists; split; [reflexivity|].
      rewrite Hm; apply wrap_merged.
    + rewrite paste_tile_closed in Hp by exact Hc; discriminate.
Qed.

Lemma merge_closed_is_black (tiles : list image) (w h : Z) :
  0 <= w -> 0 <= h ->
  Forall (fun t => closed t = true) tiles ->
  merge lanczos tiles (w, h) = Ok (mkImage w h (fun _ _ => black) false).
Proof.
  intros Hw Hh Hc; unfold merge, merge_run; rewrite new_ok by assumption.
  cbn [bind].
  destruct (merge_loop_closed tiles Hc
              (mkCursor (mkImage w h (fun _ _ => black) false) 0 0 0))
    as (c' & evs & -> & Hm).
  cbn [bind]; rewrite Hm; reflexivity.
Qed.

End ClosedTiles.

(* ================================================================== *)
(** * merge: what the pasted boxes look like *)

Section MergeBoxes.

Variable lanczos : image -> Z * Z -> Z -> Z -> pixel.

Lemma wrap_cursor_ok (c : cursor) (tile : image) :
  cursor_ok c -> cursor_ok (wrap c tile).
Proof.
  unfold cursor_ok, wrap; destruct (_ >? _); simpl; lia.
Qed.

Lemma wrap_behind (c : cursor) (tile : image) (b : box) :
  cursor_ok c -> behind c b -> behind (wrap c tile) b.
Proof.
  destruct b as [[[x0 y0] x1] y1].
  unfold cursor_ok, behind, wrap; destruct (_ >? _); simpl; lia.
Qed.

(** After the wrap test the tile starts inside the destination's width. *)
Lemma wrap_fits_width (c : cursor) (tile : image) :
  0 <= width (merged c) -> 0 <= width tile ->
  x_pos (wrap c tile) <= width (merged (wrap c tile)).
Proof.
  intros HW Ht; unfold wrap.
  destruct (Z.gtb_spec (x_pos c + width tile) (width (merged c))); simpl; lia.
Qed.

Lemma behind_disjoint (c : cursor) (tile : image) (old : box) :
  behind c old -> disjoint old (paste_box c tile).
Proof.
  destruct old as [[[x0 y0] x1] y1]; unfold behind, paste_box.
  intros Hb x y Hin; apply in_box_iff in Hin; simpl in Hin.
  destruct (in_box _ x y) eqn:Hn; [|reflexivity].
  apply in_box_iff in Hn; simpl in Hn; lia.
Qed.

Lemma pasted_behind (c : cursor) (tile m : image) :
  0 <= width tile ->
  behind (mkCursor m (x_pos c + width tile) (y_pos c)
            (Z.max (current_row_height c) (height tile)))
         (paste_box c tile).
Proof. unfold behind, paste_box; simpl; lia. Qed.

Lemma advance_behind (c : cursor) (tile m : image) (b : box) :
  0 <= width tile -> behind c b ->
  behind (mkCursor m (x_pos c + width tile) (y_pos c)
            (Z.max (current_row_height c) (height tile))) b.
Proof.
  destruct b as [[[x0 y0] x1] y1]; unfold behind; simpl; lia.
Qed.

Lemma merge_loop_boxes (tiles : list image) :
  Forall valid_size tiles ->
  forall c c' evs,
    cursor_ok c -> 0 <= width (merged c) ->
    merge_loop lanczos c tiles = Ok (c', evs) ->
    ForallOrdPairs disjoint (boxes_of evs) /\
    Forall (fun b => inside (size (merged c)) b /\
                     forall old, behind c old -> disjoint old b)
           (boxes_of evs).
Proof.
  induction 1 as [|tile rest [Htw Hth] _ IH]; intros c c' evs Hok HW;
    cbn [merge_loop].
  - intros E; injection E as _ <-; split; constructor.
  - pose proof (wrap_cursor_ok c tile Hok) as Hwok.
    pose proof (wrap_fits_width c tile HW Htw) as Hfit.
    pose proof (wrap_merged c tile) as Hwm.
    destruct (merge_tile_cases lanczos c tile)
      as [[_ E]|[(_ & _ & E)|(Hy & m & fl & Hp & E)]]; rewrite E; cbn [bind].
    + intros E'; injection E' as _ <-; split; constructor.
    + destruct (merge_loop lanczos (wrap c tile) rest)
        as [[c2 evs2]|e] eqn:E2; [|discriminate].
      cbn [bind]; intros E'; injection E' as _ <-.
      destruct (IH _ _ _ Hwok ltac:(rewrite Hwm; exact HW) E2) as [Hd Hall].
      split; [exact Hd|].
      eapply Forall_impl; [|exact Hall].
      intros b [Hin Hold]; rewrite Hwm in Hin; split; [exact Hin|].
      intros old Hb; apply Hold, wrap_behind; assumption.
    + apply paste_tile_ok in Hp as (Hs & _ & _).
      set (c1 := mkCursor m _ _ _) in *.
      assert (Hins : inside (size (merged c)) (paste_box (wrap c tile) tile)).
      { unfold inside, paste_box, size; rewrite Hwm in *.
        destruct Hwok as (? & ? & ?); simpl; lia. }
      assert (Hnew : forall old, behind c old ->
                 disjoint old (paste_box (wrap c tile) tile)).
      { intros old Hb; apply behind_disjoint, wrap_behind; assumption. }
      destruct fl.
      * destruct (merge_loop lanczos c1 rest) as [[c2 evs2]|e] eqn:E2;
          [|discriminate].
        cbn [bind]; intros E'; injection E' as _ <-.
        assert (Hok1 : cursor_ok c1).
        { unfold c1, cursor_ok; destruct Hwok as (? & ? & ?); simpl; lia. }
        assert (HW1 : 0 <= width (merged c1)).
        { unfold c1; simpl; unfold size in Hs; injection Hs as -> _.
          rewrite Hwm; exact HW. }
        destruct (IH _ _ _ Hok1 HW1 E2) as [Hd Hall].
        simpl; split.
        -- constructor; [|exact Hd].
           eapply Forall_impl; [|exact Hall].
           intros b [_ Hold]; apply Hold.
           apply pasted_behind; exact Htw.
        -- constructor; [split; assumption|].
           eapply Forall_impl; [|exact Hall].
           intros b [Hin Hold]; split.
           ++ unfold c1 in Hin; simpl in Hin; rewrite Hs, Hwm in Hin; exact Hin.
           ++ intros old Hb; apply Hold.
              apply advance_behind; [exact Htw|].
              apply wrap_behind; assumption.
      * intros E'; injection E' as _ <-; simpl; split.
        -- constructor; constructor.
        -- constructor; [split; assumption | constructor].
Qed.

Lemma new_nonneg (sz : Z * Z) (m : image) :
  new sz = Ok m -> 0 <= width m /\ 0 <= height m.
Proof.
  unfold new.
  destruct (Z.ltb_spec (fst sz) 0), (Z.ltb_spec (snd sz) 0); simpl;
    try discriminate.
  intros E; injection E as <-; simpl; lia.
Qed.

(** X3. Tiles of non-negative size are never pasted over one another:
    the boxes [merge] pastes into are pairwise disjoint, and every one of
    them lies inside the destination. *)
Theorem merge_never_overwrites (tiles : list image) (target_size : Z * Z) :
  Forall valid_size tiles ->
  ForallOrdPairs disjoint (pasted_boxes lanczos tiles target_size) /\
  Forall (inside target_size) (pasted_boxes lanczos tiles target_size).
Proof.
  intros Hv; unfold pasted_boxes, merge_run, bind.
  destruct (new target_size) as [m|e] eqn:Hn; [|split; constructor].
  destruct (merge_loop lanczos (mkCursor m 0 0 0) tiles)
    as [[c evs]|e] eqn:E; [|split; constructor].
  pose proof (new_nonneg _ _ Hn) as [HW _].
  apply new_size in Hn as (Hs & _ & _).
  destruct (merge_loop_boxes tiles Hv (mkCursor m 0 0 0) c evs) as [Hd Hall];
    [unfold cursor_ok; simpl; lia | exact HW | exact E |].
  split; [exact Hd|].
  eapply Forall_impl; [|exact Hall].
  intros b [Hin _]; simpl in Hin; rewrite Hs in Hin; exact Hin.
Qed.

Lemma wrap_shape (c : cursor) (tile : image) :
  x_pos (wrap c tile) + width tile <= width (merged (wrap c tile)) \/
  x_pos (wrap c tile) = 0.
Proof.
  unfold wrap.
  destruct (Z.gtb_spec (x_pos c + width tile) (width (merged c))); simpl; lia.
Qed.

(** A loaded tile always fits a non-empty paste box. *)
Lemma paste_tile_loaded (c : cursor) (tile : image) :
  loaded tile ->
  0 <= x_pos c -> y_pos c < height (merged c) -> 0 < width (merged c) ->
  x_pos c + width tile <= width (merged c) \/ x_pos c = 0 ->
  exists m, paste_tile lanczos c tile = Ok m.
Proof.
  intros (Hc & Hw & Hh) Hx Hy HW Hshape.
  unfold paste_tile, paste_box.
  set (bw := Z.min (x_pos c + width tile) (width (merged c)) - x_pos c).
  set (bh := Z.min (y_pos c + height tile) (height (merged c)) - y_pos c).
  assert (Hbw : 1 <= bw) by (unfold bw; lia).
  assert (Hbh : 1 <= bh) by (unfold bh; lia).
  destruct (resize_loaded lanczos tile (bw, bh) Hc) as [r Hr];
    [simpl; lia | simpl; lia |].
  rewrite Hr; cbn [bind].
  apply resize_size in Hr as [Hs Hrc].
  unfold paste; rewrite Hrc; fold bw bh; rewrite Hs, size_eqb_refl; simpl.
  eauto.
Qed.

Lemma merge_loop_no_skip (tiles : list image) :
  Forall loaded tiles ->
  forall c c' evs,
    cursor_ok c -> 0 < width (merged c) ->
    merge_loop lanczos c tiles = Ok (c', evs) ->
    ~ In Skipped evs.
Proof.
  induction 1 as [|tile rest Hl _ IH]; intros c c' evs Hok HW;
    cbn [merge_loop].
  - intros E; injection E as _ <-; intros [].
  - pose proof (wrap_cursor_ok c tile Hok) as Hwok.
    pose proof (wrap_merged c tile) as Hwm.
    destruct (merge_tile_cases lanczos c tile)
      as [[_ E]|[(Hy & Hr & _)|(Hy & m & fl & Hp & E)]].
    + rewrite E; cbn [bind]; intros E'; injection E' as _ <-.
      intros [H|[]]; discriminate H.
    + destruct (paste_tile_loaded (wrap c tile) tile Hl) as [m Hm];
        [apply Hwok | exact Hy | rewrite Hwm; exact HW | apply wrap_shape |].
      rewrite Hm in Hr; discriminate Hr.
    + rewrite E; cbn [bind].
      apply paste_tile_ok in Hp as (Hs & _ & _).
      set (c1 := mkCursor m _ _ _) in *.
      destruct fl.
      * destruct (merge_loop lanczos c1 rest) as [[c2 evs2]|e] eqn:E2;
          [|discriminate].
        cbn [bind]; intros E'; injection E' as _ <-.
        intros [H|H]; [discriminate H|].
        revert H; apply (IH c1 c2 evs2); [| |exact E2].
        -- destruct Hl as (_ & Htw & _), Hwok as (? & ? & ?).
           unfold c1, cursor_ok; simpl; lia.
        -- unfold c1; simpl; unfold size in Hs; injection Hs as -> _.
           rewrite Hwm; exact HW.
      * intros E'; injection E' as _ <-.
        intros [H|[]]; discriminate H.
Qed.

(** X4. With a positive target size, a tile that is open and at least 1x1
    never makes the paste raise: [merge] returns and its except branch is
    never taken, every tile is pasted until the loop stops. *)
Theorem merge_never_skips_loaded_tiles
    (tiles : list image) (target_size : Z * Z) :
  Forall loaded tiles -> 0 < fst target_size -> 0 < snd target_size ->
  exists c evs,
    merge_run lanczos tiles target_size = Ok (c, evs) /\
    ~ In Skipped evs.
Proof.
  destruct target_size as [w h]; simpl; intros Hl Hw Hh.
  destruct (merge_run_spec lanczos tiles w h) as (c & evs & E & _);
    [lia | lia |].
  exists c, evs; split; [exact E|].
  unfold merge_run in E; rewrite new_ok in E by lia; cbn [bind] in E.
  eapply merge_loop_no_skip; [exact Hl | | | exact E].
  - unfold cursor_ok; simpl; lia.
  - simpl; exact Hw.
Qed.

End MergeBoxes.

(* ================================================================== *)
(** * Cutting an image into tiles and merging them back *)

Section RoundTrip.

Variable lanczos : image -> Z * Z -> Z -> Z -> pixel.

Lemma crop_proper (img : image) (b : box) :
  closed img = false -> proper (width img) (height img) b ->
  crop img b = Ok (crop_at img b).
Proof.
  destruct b as [[[x0 y0] x1] y1]; intros Hc (Hx & _ & Hy & _).
  unfold crop, crop_at; rewrite Hc.
  destruct (Z.ltb_spec x1 x0); [lia|].
  destruct (Z.ltb_spec y1 y0); [lia|]; reflexivity.
Qed.

(** Pasting the crop of [b] from a cursor that is ready for it. *)
Lemma merge_tile_ready (img : image) (c : cursor) (b : box) :
  proper (width img) (height img) b ->
  size (merged c) = size img ->
  ready c b (crop_at img b) ->
  exists m,
    merge_tile lanczos c (crop_at img b) =
      Ok (mkCursor m (snd (fst b)) (snd (fst (fst b)))
            (snd b - snd (fst (fst b))),
          Next, Pasted b) /\
    size m = size img /\
    forall px py,
      getpixel m px py =
        if in_box b px py then getpixel img px py
        else getpixel (merged c) px py.
Proof.
  destruct b as [[[x0 y0] x1] y1]; intros (Hx & HxW & Hy & HyH) Hs.
  unfold ready; set (t := crop_at img (x0, y0, x1, y1)).
  intros (Hwx & Hwy & Hwr).
  pose proof (wrap_merged c t) as Hwm.
  assert (HW : width (merged c) = width img /\ height (merged c) = height img)
    by (unfold size in Hs; injection Hs; auto).
  destruct HW as [HW HH].
  assert (Hb : paste_box (wrap c t) t = (x0, y0, x1, y1)).
  { unfold paste_box; rewrite Hwx, Hwy, Hwm, HW, HH; unfold t; simpl.
    replace (Z.min (x0 + (x1 - x0)) (width img)) with x1 by lia.
    replace (Z.min (y0 + (y1 - y0)) (height img)) with y1 by lia.
    reflexivity. }
  assert (Hp : paste_tile lanczos (wrap c t) t =
               Ok (mkImage (width (merged c)) (height (merged c))
                     (fun x y =>
                        if in_box (x0, y0, x1, y1) x y
                        then getpixel t (x - x0) (y - y0)
                        else getpixel (merged c) x y)
                     (closed (merged c)))).
  { unfold paste_tile; rewrite Hb.
    change (x1 - x0, y1 - y0) with (size t).
    rewrite resize_same by reflexivity; cbn [bind].
    unfold paste.
    change (closed t) with false.
    change (x1 - x0, y1 - y0) with (size t).
    rewrite size_eqb_refl, Hwm; reflexivity. }
  match type of Hp with _ = Ok ?i => set (m := i) in Hp end.
  exists m; split; [|split].
  - unfold merge_tile; rewrite Hp, Hwy, Hwx, Hwm, Hb.
    destruct (Z.geb_spec y0 (height (merged c))); [lia|].
    cbn [merged y_pos current_row_height x_pos].
    change (width t) with (x1 - x0); change (height t) with (y1 - y0).
    replace (x0 + (x1 - x0)) with x1 by lia.
    replace (Z.max (current_row_height (wrap c t)) (y1 - y0))
      with (y1 - y0) by lia.
    change (height m) with (height (merged c)).
    destruct (Z.gtb_spec (y0 + (y1 - y0)) (height (merged c))); [lia|].
    reflexivity.
  - unfold size; simpl; rewrite HW, HH; reflexivity.
  - intros px py; unfold m; cbn [getpixel].
    destruct (in_box (x0, y0, x1, y1) px py) eqn:Hin; [|reflexivity].
    apply in_box_iff in Hin; simpl in Hin.
    unfold t, crop_at; cbn [getpixel].
    replace (x0 + (px - x0)) with px by lia.
    replace (y0 + (py - y0)) with py by lia.
    assert (Hi : in_box (0, 0, width img, height img) px py = true)
      by (apply in_box_iff; simpl; lia).
    rewrite Hi; reflexivity.
Qed.

(** The cursor left behind by [b] is ready for the box that follows. *)
Lemma ready_next (img : image) (m : image) (b b' : box) :
  proper (width img) (height img) b ->
  proper (width img) (height img) b' ->
  follows (width img) b b' ->
  size m = size img ->
  ready (mkCursor m (snd (fst b)) (snd (fst (fst b)))
           (snd b - snd (fst (fst b))))
        b' (crop_at img b').
Proof.
  destruct b as [[[x0 y0] x1] y1], b' as [[[x0' y0'] x1'] y1'].
  intros (Hx & HxW & Hy & HyH) (Hx' & HxW' & Hy' & HyH') Hf Hs.
  assert (HW : width m = width img) by (unfold size in Hs; injection Hs; auto).
  unfold ready, wrap; simpl; rewrite HW.
  destruct Hf as [(-> & -> & ->)|(-> & -> & ->)].
  - destruct (Z.gtb_spec (x1 + (x1' - x1)) (width img)); simpl; lia.
  - destruct (Z.gtb_spec (width img + (x1' - 0)) (width img)); simpl; lia.
Qed.

Lemma merge_chain (img : image) (l : list box) :
  forall b c,
    Forall (proper (width img) (height img)) (b :: l) ->
    chained (width img) b l ->
    ready c b (crop_at img b) ->
    size (merged c) = size img ->
    exists c' evs,
      merge_loop lanczos c (map (crop_at img) (b :: l)) = Ok (c', evs) /\
      forall px py,
        getpixel (merged c') px py =
          if existsb (fun b => in_box b px py) (b :: l)
          then getpixel img px py
          else getpixel (merged c) px py.
Proof.
  induction l as [|b' r IH]; intros b c Hall Hch Hr Hs.
  - inversion Hall as [|? ? Hb _]; subst.
    destruct (merge_tile_ready img c b Hb Hs Hr) as (m & E & _ & Hpx).
    cbn [map merge_loop]; rewrite E; cbn [bind].
    do 2 eexists; split; [reflexivity|].
    intros px py; cbn [merged existsb]; rewrite Hpx, orb_false_r; reflexivity.
  - inversion Hall as [|? ? Hb Hrest]; subst.
    inversion Hrest as [|? ? Hb' _]; subst.
    destruct Hch as [Hf Hch].
    destruct (merge_tile_ready img c b Hb Hs Hr) as (m & E & Hsm & Hpx).
    pose proof (ready_next img m b b' Hb Hb' Hf Hsm) as Hr'.
    destruct (IH b' _ Hrest Hch Hr' Hsm) as (c' & evs & E' & Hpx').
    change (map (crop_at img) (b :: b' :: r))
      with (crop_at img b :: map (crop_at img) (b' :: r)).
    cbn [merge_loop]; rewrite E; cbn [bind]; rewrite E'; cbn [bind].
    do 2 eexists; split; [reflexivity|].
    intros px py; rewrite Hpx'; cbn [merged].
    change (existsb (fun b0 => in_box b0 px py) (b :: b' :: r))
      with (in_box b px py || existsb (fun b0 => in_box b0 px py) (b' :: r)).
    destruct (existsb _ (b' :: r)); [rewrite orb_true_r; reflexivity|].
    rewrite orb_false_r; apply Hpx.
Qed.

Lemma tiles_proper (W H chunk : Z) (t : box) :
  0 < chunk -> In t (tiles W H chunk) ->
  proper W H t /\
  snd (fst t) - fst (fst (fst t)) <= chunk /\
  snd t - snd (fst (fst t)) <= chunk.
Proof.
  intros Hc Ht; apply tiles_In in Ht as (x & y & Hx & Hy & ->).
  apply range_In in Hx as (i & Hi & -> & Hxi), Hy as (j & Hj & -> & Hyj);
    try exact Hc.
  unfold proper; simpl; nia.
Qed.

Lemma range_count (stop step : Z) :
  0 < step -> 0 < stop ->
  (0 < Z.to_nat ((stop + step - 1) / step))%nat /\
  (forall i, (i < Z.to_nat ((stop + step - 1) / step))%nat ->
             Z.of_nat i * step < stop) /\
  stop <= Z.of_nat (Z.to_nat ((stop + step - 1) / step)) * step.
Proof.
  intros Hs H0.
  set (q := (stop + step - 1) / step).
  assert (Hq1 : step * q <= stop + step - 1) by (apply Z.mul_div_le; lia).
  assert (Hq2 : stop + step - 1 < step * (q + 1)).
  { pose proof (Z.mul_succ_div_gt (stop + step - 1) step Hs) as Hm.
    fold q in Hm; lia. }
  assert (Hq : 1 <= q) by nia.
  split; [lia|]; split.
  - intros i Hi; nia.
  - rewrite Z2Nat.id by lia; nia.
Qed.

Lemma last_cons {A : Type} (a d : A) (l : list A) :
  last (a :: l) d = last l a.
Proof.
  revert a d; induction l as [|b l IH]; intros a d; [reflexivity|].
  change (last (a :: b :: l) d) with (last (b :: l) d).
  rewrite (IH b d), (IH b a); reflexivity.
Qed.

Lemma chained_app (W : Z) (l1 l2 : list box) :
  forall b,
    chained W b l1 -> chained W (last l1 b) l2 -> chained W b (l1 ++ l2).
Proof.
  induction l1 as [|a l1 IH]; intros b H1 H2; [exact H2|].
  destruct H1 as [Hf H1]; split; [exact Hf|].
  apply IH; [exact H1|]; rewrite last_cons in H2; exact H2.
Qed.

Section Plan.

Variables W H chunk : Z.

Lemma row_chained (y : Z) (n : nat) :
  forall k,
    (forall i, (i < k + S n)%nat -> Z.of_nat i * chunk < W) ->
    chained W (tile_at W H chunk (Z.of_nat k * chunk) y) (row_from W H chunk y (S k) n).
Proof.
  induction n as [|n IH]; intros k Hlt; [exact I|].
  split.
  - left; pose proof (Hlt (S k) ltac:(lia)).
    cbv beta iota delta [follows tile_at]; lia.
  - apply IH; intros i Hi; apply Hlt; lia.
Qed.

Lemma row_last (y : Z) (n : nat) :
  forall k,
    last (row_from W H chunk y (S k) n) (tile_at W H chunk (Z.of_nat k * chunk) y)
    = tile_at W H chunk (Z.of_nat (k + n) * chunk) y.
Proof.
  induction n as [|n IH]; intros k.
  - simpl; rewrite Nat.add_0_r; reflexivity.
  - change (row_from W H chunk y (S k) (S n))
      with (tile_at W H chunk (Z.of_nat (S k) * chunk) y :: row_from W H chunk y (S (S k)) n).
    rewrite last_cons, IH; do 2 f_equal; lia.
Qed.

Lemma plan_chained (nx : nat) (m : nat) :
  (forall i, (i < S nx)%nat -> Z.of_nat i * chunk < W) ->
  W <= Z.of_nat (S nx) * chunk ->
  forall j,
    (forall i, (i < j + S m)%nat -> Z.of_nat i * chunk < H) ->
    chained W (tile_at W H chunk 0 (Z.of_nat j * chunk))
      (row_from W H chunk (Z.of_nat j * chunk) 1 nx ++ plan_from W H chunk (S nx) (S j) m).
Proof.
  intros HxW Hend; induction m as [|m IH]; intros j HyH.
  - apply chained_app; [|exact I].
    apply (row_chained _ nx 0%nat); intros i Hi; apply HxW; lia.
  - apply chained_app.
    + apply (row_chained _ nx 0%nat); intros i Hi; apply HxW; lia.
    + rewrite (row_last _ nx 0%nat).
      change (plan_from W H chunk (S nx) (S j) (S m))
        with (tile_at W H chunk (Z.of_nat 0 * chunk) (Z.of_nat (S j) * chunk)
              :: (row_from W H chunk (Z.of_nat (S j) * chunk) 1 nx
                  ++ plan_from W H chunk (S nx) (S (S j)) m)).
      split.
      * right; pose proof (HyH (S j) ltac:(lia)).
        pose proof (HxW nx ltac:(lia)).
        cbv beta iota delta [follows tile_at]; lia.
      * apply IH; intros i Hi; apply HyH; lia.
Qed.

End Plan.

(** The plan starts in the upper-left corner and walks the image row by
    row, each tile starting where the one before it ends. *)
Lemma tiles_chained (W H chunk : Z) :
  0 < W -> 0 < H -> 0 < chunk ->
  exists rest,
    tiles W H chunk = (0, 0, Z.min (0 + chunk) W, Z.min (0 + chunk) H) :: rest /\
    chained W (0, 0, Z.min (0 + chunk) W, Z.min (0 + chunk) H) rest.
Proof.
  intros HW HH Hc.
  destruct (range_count W chunk Hc HW) as (Hnx & HxW & Hxe).
  destruct (range_count H chunk Hc HH) as (Hny & HyH & _).
  unfold tiles, range.
  destruct (Z.to_nat ((W + chunk - 1) / chunk)) as [|nx]; [lia|].
  destruct (Z.to_nat ((H + chunk - 1) / chunk)) as [|ny]; [lia|].
  eexists; split; [reflexivity|].
  apply (plan_chained W H chunk nx ny HxW Hxe 0%nat).
  intros i Hi; apply HyH; lia.
Qed.

(** X2. Cutting a loaded image into the tiles of a plan and merging the
    crops at the image's own size gives the image back, pixel for pixel,
    whatever the chunk size. *)
Theorem merge_of_crops_restores_image (img : image) (chunk : Z) :
  loaded img -> 0 < chunk ->
  exists crops out,
    Forall2 (fun b t => crop img b = Ok t)
            (tiles (width img) (height img) chunk) crops /\
    merge lanczos crops (size img) = Ok out /\
    same_pixels out img.
Proof.
  intros (Hc & HW & HH) Hch.
  destruct (tiles_chained (width img) (height img) chunk HW HH Hch)
    as (rest & Hplan & Hchain).
  set (b0 := (0, 0, Z.min (0 + chunk) (width img),
              Z.min (0 + chunk) (height img))) in *.
  assert (Hall : Forall (proper (width img) (height img)) (b0 :: rest)).
  { rewrite <- Hplan; apply Forall_forall; intros t Ht.
    apply (tiles_proper _ _ chunk t Hch Ht). }
  set (c0 := mkCursor (mkImage (width img) (height img)
                         (fun _ _ => black) false) 0 0 0).
  destruct (merge_chain img rest b0 c0 Hall Hchain) as (c' & evs & E & Hpx).
  { unfold ready, b0, wrap, c0, crop_at.
    cbn [x_pos y_pos merged width current_row_height].
    match goal with
    | |- context [?a >? ?b] => destruct (Z.gtb_spec a b)
    end; cbn [x_pos y_pos merged width current_row_height]; lia. }
  { reflexivity. }
  destruct (merge_loop_spec lanczos (map (crop_at img) (b0 :: rest)) c0)
    as (c'' & evs' & E'' & Hs & _).
  assert (Heq : Ok (c', evs) = Ok (c'', evs'))
    by (rewrite <- E; exact E'').
  injection Heq as <- <-.
  exists (map (crop_at img) (tiles (width img) (height img) chunk)), (merged c').
  split; [|split].
  - rewrite Hplan; clear - Hall Hc.
    induction Hall as [|b l Hb _ IH]; constructor; [|exact IH].
    apply crop_proper; assumption.
  - unfold merge, merge_run, size; rewrite new_ok by lia; cbn [bind].
    fold c0; rewrite Hplan.
    match goal with
    | |- context [merge_loop ?k ?c ?l] =>
        replace (merge_loop k c l) with (Ok (c', evs)) by (symmetry; exact E)
    end.
    reflexivity.
  - split; [exact Hs|].
    intros px py Hx Hy; rewrite Hpx.
    assert (Hw' : width (merged c') = width img)
      by (unfold size in Hs; simpl in Hs; injection Hs; auto).
    assert (Hh' : height (merged c') = height img)
      by (unfold size in Hs; simpl in Hs; injection Hs; auto).
    match goal with
    | |- context [existsb ?f ?l] => destruct (existsb f l) eqn:Hex
    end; [reflexivity|].
    destruct (proj2 (tiles_cover (width img) (height img) chunk px py Hch))
      as (t & Ht & Hin); [lia|].
    rewrite Hplan in Ht.
    apply not_true_iff_false in Hex; exfalso; apply Hex.
    apply existsb_exists; exists t; split; assumption.
Qed.

End RoundTrip.

(* ================================================================== *)
(** * The tile loop: what it keeps *)

Section TileLoop.

Variable lanczos : image -> Z * Z -> Z -> Z -> pixel.

Lemma memory_guard_tile (pct : float) (processed : list image) (scaled : image) :
  snd (memory_guard pct processed scaled) = snd (memory_guard pct [] scaled) /\
  size (snd (memory_guard pct processed scaled)) = size scaled /\
  exists dropped,
    processed = dropped ++ fst (memory_guard pct processed scaled) /\
    (float_gt_int pct 85 = false -> dropped = []).
Proof.
  unfold memory_guard; destruct (float_gt_int pct 85); simpl.
  - repeat split; exists (firstn (length processed - 3) processed).
    split; [symmetry; apply firstn_skipn | discriminate].
  - repeat split; exists []; split; reflexivity.
Qed.

Lemma resample_tile_sides (img : image) (tile : box) (sw sh : float) (out : image) :
  resample_tile lanczos img tile sw sh = Ok out ->
  closed out = false /\ 1 <= width out /\ 1 <= height out.
Proof.
  unfold resample_tile, scaled_size, bind.
  destruct (crop img tile) as [cropped|e]; [|discriminate].
  destruct (int _) as [w|e]; [|discriminate].
  destruct (int _) as [h|e]; [|discriminate].
  intros Hr; apply resize_size in Hr as [Hs Hc].
  unfold size in Hs; injection Hs as -> ->; split; [exact Hc | lia].
Qed.

Lemma process_tiles_spec (p : probe) (img : image) (sw sh : float)
    (plan : list box) :
  forall k processed pending,
    process_tiles lanczos p img sw sh k plan processed = Ok pending ->
    exists all dropped,
      scaled_tiles lanczos p img sw sh k plan = Ok all /\
      processed ++ all = dropped ++ pending /\
      length all = length plan /\
      Forall (fun t => 1 <= width t /\ 1 <= height t) all /\
      (processed ++ all <> [] -> pending <> []) /\
      ((forall i, float_gt_int (percent p i) 85 = false) -> dropped = []).
Proof.
  induction plan as [|tile rest IH]; intros k processed pending;
    cbn [process_tiles scaled_tiles].
  - intros E; injection E as <-.
    exists [], []; rewrite app_nil_r; repeat split; auto.
  - destruct (resample_tile lanczos img tile sw sh) as [scaled|e] eqn:Hr;
      [|discriminate]; cbn [bind].
    destruct (memory_guard_tile (percent p k) processed scaled)
      as (Hsnd & Hsize & d0 & Hd0 & Hnone).
    destruct (memory_guard (percent p k) processed scaled)
      as [processed' scaled'] eqn:Hg; simpl in Hsnd, Hsize, Hd0.
    intros E; apply IH in E
      as (all & dropped & Hall & Happ & Hlen & Hsides & Hne & Hno).
    rewrite Hall; cbn [bind]; rewrite <- Hsnd.
    exists (scaled' :: all), (d0 ++ dropped).
    split; [reflexivity|].
    split; [rewrite Hd0, <- !app_assoc, <- Happ, <- !app_assoc; reflexivity|].
    split; [simpl; congruence|].
    split; [|split].
    + constructor; [|exact Hsides].
      apply resample_tile_sides in Hr as (_ & Hw & Hh).
      unfold size in Hsize; injection Hsize as -> ->; lia.
    + intros _; apply Hne.
      destruct processed'; discriminate.
    + intros Hcalm; rewrite (Hno Hcalm), (Hnone (Hcalm k)); reflexivity.
Qed.

Lemma scaled_tiles_calm (p : probe) (img : image) (sw sh : float)
    (plan : list box) :
  (forall i, float_gt_int (percent p i) 85 = false) ->
  forall k all,
    scaled_tiles lanczos p img sw sh k plan = Ok all ->
    Forall (fun t => closed t = false) all.
Proof.
  intros Hcalm; induction plan as [|tile rest IH]; intros k all;
    cbn [scaled_tiles].
  - intros E; injection E as <-; constructor.
  - destruct (resample_tile lanczos img tile sw sh) as [scaled|e] eqn:Hr;
      [|discriminate]; cbn [bind].
    destruct (scaled_tiles lanczos p img sw sh (S k) rest)
      as [later|e] eqn:Hl; [|discriminate]; cbn [bind].
    intros E; injection E as <-.
    constructor; [|eapply IH; eauto].
    unfold memory_guard; rewrite (Hcalm k); simpl.
    eapply resample_tile_sides; eauto.
Qed.

(** X6. The tiles the loop hands on are always the latest ones: the
    pending list is what is left of the sequence of all scaled tiles, in
    order, after dropping tiles from its front; it has one tile per plan
    tile when memory use never exceeds 85%, it is never empty for a
    non-empty plan, and every tile has sides of at least 1. *)
Theorem tile_loop_keeps_the_latest
    (p : probe) (img : image) (scale_w scale_h : float)
    (plan : list box) (pending : list image) :
  process_tiles lanczos p img scale_w scale_h 0 plan [] = Ok pending ->
  exists all dropped,
    scaled_tiles lanczos p img scale_w scale_h 0 plan = Ok all /\
    all = dropped ++ pending /\
    length all = length plan /\
    Forall (fun t => 1 <= width t /\ 1 <= height t) pending /\
    (plan <> [] -> pending <> []) /\
    ((forall k, float_gt_int (percent p k) 85 = false) ->
     pending = all /\ Forall (fun t => closed t = false) pending).
Proof.
  intros E; apply process_tiles_spec in E
    as (all & dropped & Hall & Happ & Hlen & Hsides & Hne & Hno).
  simpl in Happ.
  exists all, dropped; split; [exact Hall|].
  split; [exact Happ|]; split; [exact Hlen|].
  split; [|split].
  - rewrite Happ in Hsides; apply Forall_app in Hsides; apply Hsides.
  - intros Hp; apply Hne; simpl.
    destruct all; [destruct plan; [contradiction | discriminate]|discriminate].
  - intros Hcalm; rewrite (Hno Hcalm) in Happ; simpl in Happ; subst all.
    split; [reflexivity|].
    eapply scaled_tiles_calm; eauto.
Qed.

Lemma process_tiles_pressed (p : probe) (img : image) (sw sh : float)
    (plan : list box) :
  (forall i, float_gt_int (percent p i) 85 = true) ->
  forall k processed pending,
    Forall (fun t => closed t = true) processed ->
    (length processed <= 4)%nat ->
    process_tiles lanczos p img sw sh k plan processed = Ok pending ->
    Forall (fun t => closed t = true) pending /\ (length pending <= 4)%nat.
Proof.
  intros Hp; induction plan as [|tile rest IH]; intros k processed pending Hc Hl;
    cbn [process_tiles].
  - intros E; injection E as <-; auto.
  - destruct (resample_tile lanczos img tile sw sh) as [scaled|e];
      [|discriminate]; cbn [bind].
    unfold memory_guard; rewrite (Hp k).
    apply IH.
    + apply Forall_app; split; [|repeat constructor].
      unfold last3; rewrite <- (firstn_skipn (length processed - 3)) in Hc.
      apply Forall_app in Hc; apply Hc.
    + rewrite length_app; unfold last3; rewrite length_skipn; simpl; lia.
Qed.

(** X7. When memory use is above 85% at every tile, at most four tiles
    are pending at the end of the loop and every one of them is closed,
    so [merge] pastes none of them: [safe_resize] returns an all-black
    image of the target size whenever the tile loop runs to its end. *)
Theorem sustained_pressure_gives_black
    (p : probe) (img : image) (target_size : Z * Z) (pending : list image) :
  (forall k, float_gt_int (percent p k) 85 = true) ->
  0 <= fst target_size -> 0 <= snd target_size ->
  pending_tiles lanczos p img target_size = Ok pending ->
  (length pending <= 4)%nat /\
  Forall (fun t => closed t = true) pending /\
  safe_resize lanczos p img target_size =
    Ok (mkImage (fst target_size) (snd target_size) (fun _ _ => black) false).
Proof.
  intros Hp Hw Hh E.
  assert (Hcl : Forall (fun t => closed t = true) pending /\
                (length pending <= 4)%nat).
  { unfold pending_tiles, bind in E.
    destruct (HardwareManager.check_resources p); [|discriminate].
    destruct (chunk_size _ _ _); [|discriminate].
    destruct (truediv _ _); [|discriminate].
    destruct (truediv _ _); [|discriminate].
    eapply process_tiles_pressed; [exact Hp | constructor | simpl; lia | exact E]. }
  destruct Hcl as [Hc Hl]; split; [exact Hl|]; split; [exact Hc|].
  unfold safe_resize, tiled_resize; rewrite E; cbn [bind].
  destruct target_size as [w h]; simpl in *.
  rewrite merge_closed_is_black by assumption; reflexivity.
Qed.

(** X5. For a loaded source image and a target size with positive sides,
    [safe_resize] never raises, whatever psutil reports: it returns an
    open image of exactly the target size. *)
Theorem safe_resize_never_raises
    (p : probe) (img : image) (target_size : Z * Z) :
  loaded img -> 0 < fst target_size -> 0 < snd target_size ->
  exists out,
    safe_resize lanczos p img target_size = Ok out /\
    size out = target_size /\ closed out = false.
Proof.
  intros Hl Hw Hh.
  destruct (safe_resize_total lanczos p img target_size Hl Hw Hh) as [out E].
  exists out; split; [exact E|]; eapply safe_resize_size; eauto.
Qed.

(** X15. Without memory pressure the except branch of [merge] is dead
    code: when memory use never exceeds 85% and the target size is
    positive, every tile the loop hands to [merge] is open and at least
    1x1, and [merge] skips none of them. *)
Theorem calm_runs_never_skip
    (p : probe) (img : image) (target_size : Z * Z) (pending : list image) :
  (forall k, float_gt_int (percent p k) 85 = false) ->
  0 < fst target_size -> 0 < snd target_size ->
  pending_tiles lanczos p img target_size = Ok pending ->
  Forall loaded pending /\
  exists c evs,
    merge_run lanczos pending target_size = Ok (c, evs) /\
    ~ In Skipped evs.
Proof.
  intros Hcalm Hw Hh E.
  assert (Hl : Forall loaded pending).
  { unfold pending_tiles, bind in E.
    destruct (HardwareManager.check_resources p); [|discriminate].
    destruct (chunk_size _ _ _); [|discriminate].
    destruct (truediv _ _) as [sw|]; [|discriminate].
    destruct (truediv _ _) as [sh|]; [|discriminate].
    apply process_tiles_spec in E
      as (all & dropped & Hall & Happ & _ & Hsides & _ & Hno).
    rewrite (Hno Hcalm) in Happ; simpl in Happ; subst all.
    pose proof (scaled_tiles_calm _ _ _ _ _ Hcalm _ _ Hall) as Hopen.
    clear - Hsides Hopen.
    induction Hsides as [|t r [Ht1 Ht2] _ IH]; [constructor|].
    inversion Hopen; subst; constructor; [|apply IH; assumption].
    unfold loaded; repeat split; [assumption | lia | lia]. }
  split; [exact Hl|].
  destruct target_size as [w h]; simpl in Hw, Hh.
  destruct (merge_run_spec lanczos pending w h) as (c & evs & Er & _);
    [lia | lia |].
  exists c, evs; split; [exact Er|].
  unfold merge_run in Er; rewrite new_ok in Er by lia; cbn [bind] in Er.
  eapply merge_loop_no_skip; [exact Hl | | | exact Er].
  - unfold cursor_ok; simpl; lia.
  - simpl; exact Hw.
Qed.

(** X1. Whatever the available memory, the chunk size is a multiple of
    128 between 256 and 2048, and every tile of the plan is a non-empty
    box inside the image, at most one chunk wide and high. *)
Theorem plan_tiles_are_bounded
    (available W H chunk x0 y0 x1 y1 : Z) :
  chunk_size available W H = Ok chunk ->
  In (x0, y0, x1, y1) (tiles W H chunk) ->
  (exists m, 2 <= m <= 16 /\ chunk = m * 128) /\
  0 <= x0 < x1 /\ x1 <= W /\ 0 <= y0 < y1 /\ y1 <= H /\
  x1 - x0 <= chunk /\ y1 - y0 <= chunk.
Proof.
  intros Hc Hin.
  pose proof (chunk_size_bounds _ _ _ _ Hc) as Hb.
  destruct (tiles_proper W H chunk _ ltac:(lia) Hin) as (Hp & Hw & Hh).
  split; [|unfold proper in Hp; simpl in Hw, Hh; lia].
  unfold chunk_size, bind in Hc.
  destruct (truediv _ _); [|discriminate].
  destruct (math_sqrt _); [|discriminate].
  destruct (int _) as [k|]; [|discriminate].
  injection Hc as <-; unfold clamp_chunk in *.
  destruct (Z_le_gt_dec k 2); [exists 2; lia|].
  destruct (Z_le_gt_dec 16 k); [exists 16; lia|].
  exists k; lia.
Qed.

End TileLoop.

(* ================================================================== *)
(** * process: closed form of the sizes, runs that cannot fail *)

Section ProcessRuns.

Variable lanczos : image -> Z * Z -> Z -> Z -> pixel.

Lemma halved_from_pow (lv : list level) :
  forall prev i l,
    halved_from prev lv ->
    nth_error lv i = Some l ->
    target l = (fst prev / 2 ^ Z.of_nat (S i), snd prev / 2 ^ Z.of_nat (S i)).
Proof.
  induction lv as [|l0 rest IH]; intros prev i l Hh Hn.
  - destruct i; discriminate.
  - destruct Hh as [Ht Hrest]; destruct i as [|i].
    + simpl in Hn; injection Hn as <-; rewrite Ht; reflexivity.
    + simpl in Hn; rewrite (IH _ _ _ Hrest Hn), Ht; unfold halve; simpl fst;
        simpl snd.
      rewrite !Zdiv_Zdiv by lia.
      rewrite (Nat2Z.inj_succ (S i)), Z.pow_succ_r by lia; reflexivity.
Qed.

(** X8. In every run that reaches the end of the chain, level [i] is
    asked for, and handed on at, the base image's width and height
    divided by [2^i], rounded down. *)
Theorem level_size_is_base_over_power_of_two
    (probes : nat -> probe) (base : image) (rest : list image)
    (chain : list level) (i : nat) (l : level) :
  process lanczos probes (base :: rest) = Ok chain ->
  nth_error chain i = Some l ->
  target l = (width base / 2 ^ Z.of_nat i, height base / 2 ^ Z.of_nat i) /\
  size (output l) = target l.
Proof.
  unfold process; destruct rest as [|img rest]; [discriminate|].
  unfold bind.
  destruct (process_levels lanczos probes 1 (size base) (img :: rest))
    as [later|e] eqn:Hl; [|discriminate].
  intros E Hn; injection E as <-.
  apply process_levels_spec in Hl as (_ & Hout & Hlink).
  destruct i as [|i].
  - simpl in Hn; injection Hn as <-; simpl.
    rewrite !Z.div_1_r; split; reflexivity.
  - simpl in Hn; split.
    + apply (halved_from_pow later (size base) i l Hlink Hn).
    + rewrite Forall_forall in Hout; apply Hout.
      eapply nth_error_In; eauto.
Qed.

Lemma process_levels_total (probes : nat -> probe) (files : list image) :
  Forall loaded files ->
  forall idx cur,
    2 ^ Z.of_nat (length files) <= fst cur ->
    2 ^ Z.of_nat (length files) <= snd cur ->
    exists lv, process_levels lanczos probes idx cur files = Ok lv /\
               length lv = length files.
Proof.
  induction 1 as [|img rest Hl _ IH]; intros idx cur Hw Hh;
    cbn [process_levels].
  - eexists; split; reflexivity.
  - change (length (img :: rest)) with (S (length rest)) in Hw, Hh.
    rewrite Nat2Z.inj_succ, Z.pow_succ_r in Hw, Hh by lia.
    pose proof (Z.pow_pos_nonneg 2 (Z.of_nat (length rest))
                  ltac:(lia) ltac:(lia)) as Hpos.
    assert (Hw' : 2 ^ Z.of_nat (length rest) <= fst (halve cur))
      by (unfold halve; simpl; apply Z.div_le_lower_bound; lia).
    assert (Hh' : 2 ^ Z.of_nat (length rest) <= snd (halve cur))
      by (unfold halve; simpl; apply Z.div_le_lower_bound; lia).
    destruct (process_image_total lanczos (probes idx) img (halve cur) Hl)
      as (out & w & ->); [lia | lia |].
    cbn [bind].
    destruct (IH (S idx) (halve cur) Hw' Hh') as (lv & -> & Hlen).
    cbn [bind]; eexists; split; [reflexivity|]; simpl; congruence.
Qed.

(** X9. With at least two files, every file after the base loaded, and a
    base image at least [2^n] wide and high for [n] further levels, the
    sizing and resampling of [process] never raise, whatever psutil
    reports at any level: one level is returned per file. *)
Theorem process_completes_on_large_base
    (probes : nat -> probe) (base : image) (rest : list image) :
  rest <> [] -> Forall loaded rest ->
  2 ^ Z.of_nat (length rest) <= width base ->
  2 ^ Z.of_nat (length rest) <= height base ->
  exists chain,
    process lanczos probes (base :: rest) = Ok chain /\
    length chain = S (length rest).
Proof.
  intros Hne Hl Hw Hh; unfold process.
  destruct rest as [|img rest]; [contradiction|].
  destruct (process_levels_total probes (img :: rest) Hl 1%nat (size base) Hw Hh)
    as (lv & -> & Hlen).
  cbn [bind]; eexists; split; [reflexivity|].
  cbn [length]; rewrite Hlen; reflexivity.
Qed.

Lemma process_levels_sized (probes : nat -> probe) (files : list image) :
  forall idx cur,
    sized_from cur files ->
    process_levels lanczos probes idx cur files =
      Ok (map (fun f => mkLevel (size f) f f false) files).
Proof.
  induction files as [|img rest IH]; intros idx cur Hs; cbn [process_levels];
    [reflexivity|].
  destruct Hs as [Hsz Hrest].
  unfold process_image; rewrite Hsz, size_eqb_refl; cbn [bind].
  rewrite <- Hsz, (IH (S idx) (size img) Hrest); reflexivity.
Qed.

(** X10. When every file already has half the size of the one before
    it, no image is resampled and psutil is never consulted: every level
    hands on its own file unchanged, without a warning. *)
Theorem process_reuses_halved_files
    (probes : nat -> probe) (base : image) (rest : list image) :
  rest <> [] -> sized_from (size base) rest ->
  process lanczos probes (base :: rest) =
    Ok (map (fun f => mkLevel (size f) f f false) (base :: rest)).
Proof.
  intros Hne Hs; unfold process.
  destruct rest as [|img rest]; [contradiction|].
  rewrite (process_levels_sized probes (img :: rest) 1%nat (size base) Hs).
  reflexivity.
Qed.

End ProcessRuns.

(* ================================================================== *)
(** * Startup checks and file discovery: facts *)

Section StartupFacts.

Import Config String.

(** X11. On a system that is neither Windows nor Linux the startup check
    raises KeyError whatever is on disk; on Windows and Linux it raises
    FileNotFoundError for the first thing missing among the input
    directory, texassemble and texconv (in that order, with the Windows
    names ending in .exe), and passes when all three exist. *)
Theorem validate_environment_outcomes
    (system : string) (input_dir_exists : bool)
    (tool_exists : string -> bool) :
  (system <> Windows -> system <> Linux ->
   validate_environment system input_dir_exists tool_exists = KeyError)
  /\
  (forall texassemble texconv,
     get_tool system "texassemble" = Some texassemble ->
     get_tool system "texconv" = Some texconv ->
     (system = Windows /\ texassemble = "texassemble.exe"%string
                       /\ texconv = "texconv.exe"%string
      \/ system = Linux /\ texassemble = "texassemble"%string
                        /\ texconv = "texconv"%string) /\
     validate_environment system input_dir_exists tool_exists =
       if input_dir_exists
       then if tool_exists texassemble
            then if tool_exists texconv then Validated
                 else FileNotFound Texconv
            else FileNotFound Texassemble
       else FileNotFound InputDirectory).
Proof.
  unfold validate_environment, get_tool, tool_map, Windows, Linux.
  cbn [lookup String.eqb Ascii.eqb Bool.eqb andb].
  split.
  - intros HW HL.
    apply String.eqb_neq in HW, HL; rewrite HW, HL; reflexivity.
  - intros a c.
    destruct (String.eqb_spec system "Windows") as [->|HW].
    + intros E1 E2; injection E1 as <-; injection E2 as <-.
      split; [left; repeat split|].
      destruct input_dir_exists, (tool_exists _), (tool_exists _); reflexivity.
    + destruct (String.eqb_spec system "Linux") as [->|HL]; [|discriminate].
      intros E1 E2; injection E1 as <-; injection E2 as <-.
      split; [right; repeat split|].
      destruct input_dir_exists, (tool_exists _), (tool_exists _); reflexivity.
Qed.

End StartupFacts.

Section FileNames.

Import Files.

Lemma name_eqb_eq (a b : name) : name_eqb a b = true <-> a = b.
Proof.
  unfold name_eqb; destruct (list_eq_dec Ascii.ascii_dec a b);
    split; congruence.
Qed.

Lemma fnmatch_star_spec (pre suf nm : name) :
  fnmatch_star pre suf nm = true <->
  (length pre + length suf <= length nm)%nat /\
  firstn (length pre) nm = pre /\
  skipn (length nm - length suf) nm = suf.
Proof.
  unfold fnmatch_star.
  rewrite !andb_true_iff, !name_eqb_eq, Nat.leb_le; tauto.
Qed.

(** X12. The temporary file written for a level found by the [p*.png]
    glob is always matched by the [temp_*.png] glob of the final cleanup,
    while an input file is never matched by it, and a temporary file is
    never taken for an input file. *)
Theorem temp_files_are_swept (nm : name) :
  is_mip_file nm = true ->
  is_swept (temp_name nm) = true /\
  is_swept nm = false /\
  is_mip_file (temp_name nm) = false.
Proof.
  unfold is_mip_file, is_swept, temp_name.
  intros Hm; apply fnmatch_star_spec in Hm as (Hlen & Hpre & Hsuf).
  change (length p_prefix) with 1%nat in *.
  change (length png_suffix) with 4%nat in *.
  split; [|split].
  - apply fnmatch_star_spec.
    change (length temp_prefix) with 5%nat.
    change (length png_suffix) with 4%nat.
    rewrite length_app; change (length temp_prefix) with 5%nat.
    split; [lia|]; split.
    + rewrite firstn_app; change (length temp_prefix) with 5%nat.
      reflexivity.
    + rewrite skipn_app; change (length temp_prefix) with 5%nat.
      rewrite skipn_all2 by (change (length temp_prefix) with 5%nat; lia).
      replace (5 + length nm - 4 - 5)%nat with (length nm - 4)%nat by lia.
      exact Hsuf.
  - apply not_true_iff_false; intros Hs.
    apply fnmatch_star_spec in Hs as (_ & Hpre' & _).
    destruct nm as [|c r]; [discriminate Hpre|].
    unfold p_prefix in Hpre; unfold temp_prefix in Hpre'.
    simpl in Hpre, Hpre'; congruence.
  - apply not_true_iff_false; intros Hs.
    apply fnmatch_star_spec in Hs as (_ & Hpre' & _).
    discriminate Hpre'.
Qed.

End FileNames.

Section FileFacts.

Import Files.

Variable int_of_str : name -> option Z.



Lemma decorate_ok (l : list name) :
  (forall nm, In nm l -> exists k, index_of int_of_str nm = Ok k) ->
  exists d, decorate int_of_str l = Ok d.
Proof.
  induction l as [|nm rest IH]; intros Hall; cbn [decorate]; [eauto|].
  destruct (Hall nm (or_introl eq_refl)) as [k ->]; cbn [bind].
  destruct IH as [d ->]; [intros; apply Hall; right; assumption|].
  cbn [bind]; eauto.
Qed.







End FileFacts.

(* ================================================================== *)
(** * The statements at concrete inputs *)

Import Samples.

(** Two tiles on a 4x4 destination: the first is clipped, the second is
    dropped below the lower edge. *)
Lemma merge_output_has_target_size_witness :
  [solid 3 5 white; solid 2 2 white] <> [] /\ 0 < fst (4, 4) /\ 0 < snd (4, 4) /\
  exists out,
    merge nearest [solid 3 5 white; solid 2 2 white] (4, 4) = Ok out /\
    size out = (4, 4) /\
    forall x y,
      (forall b, In b (pasted_boxes nearest [solid 3 5 white; solid 2 2 white] (4, 4)) ->
                 in_box b x y = false) ->
      getpixel out x y = black.
Proof.
  split; [discriminate|].
  split; [simpl; lia|].
  split; [simpl; lia|].
  apply (merge_output_has_target_size nearest
           [solid 3 5 white; solid 2 2 white] (4, 4));
    [discriminate | simpl; lia | simpl; lia].
Defined.

(** No tile, a 4x3 destination. *)
Lemma merge_empty_is_black_witness :
  0 < fst (4, 3) /\ 0 < snd (4, 3) /\
  exists out,
    merge nearest [] (4, 3) = Ok out /\
    size out = (4, 3) /\
    forall x y, getpixel out x y = black.
Proof.
  split; [simpl; lia|].
  split; [simpl; lia|].
  apply (merge_empty_is_black nearest (4, 3)); simpl; lia.
Defined.

(** C7 (the code at a failing input). A 10240x1 image is cut into five
    tiles; with 90% of memory in use at every tile the pending list ends
    with four tiles, every one of them closed although it is kept, so
    [merge] skips them all and the level comes out black; with 40% in use
    the same call returns the resampled white image. *)
Theorem pressure_closes_the_tiles_it_keeps :
  length (tiles 10240 1 2048) = 5%nat /\
  fmap (map (fun t => (size t, closed t)))
       (pending_tiles nearest pressured (solid 10240 1 white) (5120, 1))
    = Ok [(1024, 1, true); (1024, 1, true); (1024, 1, true); (1024, 1, true)] /\
  safe_resize nearest pressured (solid 10240 1 white) (5120, 1)
    = Ok (mkImage 5120 1 (fun _ _ => black) false) /\
  fmap (fun out => (size out, getpixel out 0 0))
       (safe_resize nearest calm (solid 10240 1 white) (5120, 1))
    = Ok (5120, 1, white).
Proof.
  split; [reflexivity|].
  split; [vm_compute; reflexivity|].
  split; [|vm_compute; reflexivity].
  destruct (fmap_Ok (forallb closed)
              (pending_tiles nearest pressured (solid 10240 1 white) (5120, 1))
              true) as (pending & E & Hc); [vm_compute; reflexivity|].
  unfold safe_resize, tiled_resize; rewrite E; cbn [bind].
  rewrite merge_closed_is_black; [reflexivity | lia | lia |].
  apply Forall_forall; apply forallb_forall; exact Hc.
Qed.


(** C2 with half a GiB available: the check raises, the level is made by
    the whole-image resize and the run reaches the end of the chain.  With
    exactly 1 GiB available, which is not below the floor, the check
    raises as well. *)
Lemma resource_error_does_not_abort :
  check_available starved < 1 * 1024 * 1024 * 1024 /\
  HardwareManager.check_resources starved = Raise RuntimeError /\
  fmap (map (fun l => size (output l)))
       (process nearest (fun _ => starved)
          [solid 256 256 white; solid 200 200 white])
    = Ok [(256, 256); (128, 128)] /\
  ~ check_available at_floor < 1 * 1024 * 1024 * 1024 /\
  ~ disk_free at_floor < 2 * 1024 * 1024 * 1024 /\
  HardwareManager.check_resources at_floor = Raise RuntimeError.
Proof.
  split; [reflexivity|].
  split; [reflexivity|].
  split; [vm_compute; reflexivity|].
  split; [vm_compute; discriminate|].
  split; [vm_compute; discriminate|].
  reflexivity.
Qed.

(** C5 on a 512x2 base with files of 256x1 and 128x1 and half a GiB
    available: the second level already has its size, the third is asked
    for at 128x0, the resource check raises, the whole-image resize to
    128x0 raises in its turn, and that error ends the run. *)
Lemma fallback_resize_can_raise :
  halve (size (solid 512 2 white)) = size (solid 256 1 white) /\
  halve (halve (size (solid 512 2 white))) = (128, 0) /\
  tiled_resize nearest starved (solid 128 1 white) (128, 0)
    = Raise RuntimeError /\
  resize nearest (solid 128 1 white) (128, 0) = Raise ValueError /\
  safe_resize nearest starved (solid 128 1 white) (128, 0)
    = Raise ValueError /\
  process nearest (fun _ => starved)
    [solid 512 2 white; solid 256 1 white; solid 128 1 white]
    = Raise ValueError.
Proof.
  split; [reflexivity|].
  split; [reflexivity|].
  split; [reflexivity|].
  split; [reflexivity|].
  split; [reflexivity|].
  vm_compute; reflexivity.
Qed.

(** C6 on an 8192x1 image scaled to 7x1: each 2048-wide crop times
    7/8192 is 1.75, which rounds to 2 and is truncated to 1. *)
Lemma scaled_size_is_not_rounded :
  exists scale_w scale_h,
    truediv 7 8192 = Ok scale_w /\
    truediv 1 1 = Ok scale_h /\
    fmap size
      (resample_tile nearest (solid 8192 1 white) (0, 0, 2048, 1)
         scale_w scale_h) = Ok (1, 1) /\
    rounded_size 2048 1 scale_w scale_h = Ok (2, 1) /\
    fmap (map size)
      (pending_tiles nearest calm (solid 8192 1 white) (7, 1))
      = Ok [(1, 1); (1, 1); (1, 1); (1, 1)].
Proof.
  do 2 eexists.
  split; [vm_compute; reflexivity|].
  split; [vm_compute; reflexivity|].
  split; [vm_compute; reflexivity|].
  split; [vm_compute; reflexivity|].
  vm_compute; reflexivity.
Qed.

(** C8 on a 2x4 destination and a 3x0 tile: the clipped rectangle is
    empty, the paste raises, the tile is skipped, and [x_pos] is still 0,
    not 3. *)
Lemma skipped_tile_does_not_advance :
  paste_tile nearest
    (wrap (mkCursor (mkImage 2 4 (fun _ _ => black) false) 0 0 0)
          (solid 3 0 white))
    (solid 3 0 white) = Raise ValueError /\
  exists c',
    merge_tile nearest (mkCursor (mkImage 2 4 (fun _ _ => black) false) 0 0 0)
      (solid 3 0 white) = Ok (c', Next, Skipped) /\
    x_pos c' = 0 /\
    ~ cursor_advanced
        (wrap (mkCursor (mkImage 2 4 (fun _ _ => black) false) 0 0 0)
              (solid 3 0 white))
        c' (solid 3 0 white).
Proof.
  split; [reflexivity|].
  eexists; split; [reflexivity|].
  split; [reflexivity|].
  intros [H _]; vm_compute in H; discriminate H.
Qed.


(** Half a GiB available on one side, 4 GiB and 10 GiB of disk on the other. *)
Lemma check_resources_failure_is_caught_witness :
  (HardwareManager.check_resources starved = Raise RuntimeError /\
   pending_tiles nearest starved (solid 256 256 white) (128, 128)
     = Raise RuntimeError /\
   tiled_resize nearest starved (solid 256 256 white) (128, 128)
     = Raise RuntimeError /\
   safe_resize nearest starved (solid 256 256 white) (128, 128)
     = resize nearest (solid 256 256 white) (128, 128) /\
   exists out,
     safe_resize nearest starved (solid 256 256 white) (128, 128) = Ok out /\
     size out = (128, 128) /\ closed out = false) /\
  HardwareManager.check_resources calm = Ok tt.
Proof.
  split.
  - destruct (proj1 (check_resources_failure_is_caught nearest starved
                       (solid 256 256 white) (128, 128)))
      as (E1 & E2 & E3 & E4 & Hok);
      [left; vm_compute; discriminate|].
    split; [exact E1|]; split; [exact E2|]; split; [exact E3|];
      split; [exact E4|].
    apply Hok; [split; [reflexivity | split; simpl; lia] | simpl; lia
               | simpl; lia].
  - apply (check_resources_failure_is_caught nearest calm
             (solid 256 256 white) (128, 128)).
    split; vm_compute; reflexivity.
Defined.

(** A 5000x3000 image with 4 GiB available: chunks of 768, 7 x 4 tiles. *)
Lemma tile_plan_partitions_image_witness :
  chunk_size (4 * GiB) 5000 3000 = Ok 768 /\
  length (tiles 5000 3000 768) = 28%nat /\
  256 <= 768 <= 2048 /\
  ForallOrdPairs row_major (tiles 5000 3000 768) /\
  ForallOrdPairs disjoint (tiles 5000 3000 768) /\
  (forall x y,
     (exists t, In t (tiles 5000 3000 768) /\ in_box t x y = true) <->
     (0 <= x < 5000 /\ 0 <= y < 3000)) /\
  (5000 <= 768 -> 3000 <= 768 -> tiles 5000 3000 768 = [(0, 0, 5000, 3000)]).
Proof.
  split; [vm_compute; reflexivity|].
  split; [reflexivity|].
  apply (tile_plan_partitions_image (4 * GiB) 5000 3000 768);
    [lia | lia | vm_compute; reflexivity].
Defined.

(** The resource check fails on a 256x256 image asked for at 128x128. *)
Lemma tiling_error_falls_back_to_whole_resize_witness :
  tiled_resize nearest starved (solid 256 256 white) (128, 128)
    = Raise RuntimeError /\
  safe_resize nearest starved (solid 256 256 white) (128, 128)
    = resize nearest (solid 256 256 white) (128, 128) /\
  (exists out,
     safe_resize nearest starved (solid 256 256 white) (128, 128) = Ok out /\
     size out = (128, 128)) /\
  safe_resize nearest starved (solid 128 1 white) (128, 0) = Raise ValueError.
Proof.
  split; [reflexivity|].
  destruct (tiling_error_falls_back_to_whole_resize nearest starved
              (solid 256 256 white) (128, 128) RuntimeError eq_refl)
    as (E & Hok & _).
  split; [exact E|]; split.
  - apply Hok; [split; [reflexivity | split; simpl; lia] | simpl; lia
               | simpl; lia].
  - apply (tiling_error_falls_back_to_whole_resize nearest starved
             (solid 128 1 white) (128, 0) RuntimeError eq_refl);
      [discriminate | right; simpl; lia].
Defined.

(** The first 2048x1 crop of an 8192x1 image, scaled by 7/8192 and 1. *)
Lemma resample_tile_truncates_witness :
  exists out,
    resample_tile nearest (solid 8192 1 white) (0, 0, 2048, 1)
      (SFdiv 53 1024 (float_of_int 7) (float_of_int 8192))
      (SFdiv 53 1024 (float_of_int 1) (float_of_int 1)) = Ok out /\
    size out = (Z.max 1 1, Z.max 1 1) /\
    1 <= width out /\ 1 <= height out.
Proof.
  apply (resample_tile_truncates nearest (solid 8192 1 white) (0, 0, 2048, 1)
           (SFdiv 53 1024 (float_of_int 7) (float_of_int 8192))
           (SFdiv 53 1024 (float_of_int 1) (float_of_int 1))
           (mkImage 2048 1
              (fun x y =>
                 if in_box (0, 0, 8192, 1) (0 + x) (0 + y)
                 then white else black)
              false)
           1 1);
    [reflexivity | vm_compute; reflexivity | vm_compute; reflexivity].
Defined.

(** A 3x0 tile that cannot be pasted on 2x4, a 3x2 tile pasted on 4x4. *)
Lemma merge_tile_skip_or_advance_witness :
  (forall e,
     paste_tile nearest
       (wrap (mkCursor (mkImage 2 4 (fun _ _ => black) false) 0 0 0)
             (solid 3 0 white))
       (solid 3 0 white) = Raise e ->
     merge_tile nearest (mkCursor (mkImage 2 4 (fun _ _ => black) false) 0 0 0)
       (solid 3 0 white)
     = Ok (wrap (mkCursor (mkImage 2 4 (fun _ _ => black) false) 0 0 0)
                (solid 3 0 white), Next, Skipped)) /\
  (forall m,
     paste_tile nearest
       (wrap (mkCursor (mkImage 4 4 (fun _ _ => black) false) 0 0 0)
             (solid 3 2 white))
       (solid 3 2 white) = Ok m ->
     exists c' fl,
       merge_tile nearest
         (mkCursor (mkImage 4 4 (fun _ _ => black) false) 0 0 0)
         (solid 3 2 white)
       = Ok (c', fl, Pasted (0, 0, 3, 2)) /\
       x_pos c' = 3 /\ current_row_height c' = 2).
Proof.
  split.
  - intros e He.
    apply (merge_tile_skip_or_advance nearest
             (mkCursor (mkImage 2 4 (fun _ _ => black) false) 0 0 0)
             (solid 3 0 white) [] ltac:(simpl; lia)) in He.
    exact (proj1 He).
  - intros m Hm.
    destruct (proj2 (merge_tile_skip_or_advance nearest
                (mkCursor (mkImage 4 4 (fun _ _ => black) false) 0 0 0)
                (solid 3 2 white) [] ltac:(simpl; lia)) m Hm)
      as (c' & fl & E & _ & _ & Hx & Hh).
    exists c', fl; split; [exact E|]; split; [exact Hx | exact Hh].
Defined.

(** A 3x2 tile merged alone at 3x2. *)
Lemma merge_single_full_tile_witness :
  exists out,
    merge nearest [solid 3 2 white] (size (solid 3 2 white)) = Ok out /\
    same_pixels out (solid 3 2 white).
Proof.
  apply (merge_single_full_tile nearest (solid 3 2 white));
    [reflexivity | simpl; lia | simpl; lia].
Defined.

(** A tile of the second column of a 5000x3000 image cut in chunks of 768. *)
Lemma plan_tiles_are_bounded_witness :
  (exists m, 2 <= m <= 16 /\ 768 = m * 128) /\
  0 <= 768 < 1536 /\ 1536 <= 5000 /\ 0 <= 0 < 768 /\ 768 <= 3000 /\
  1536 - 768 <= 768 /\ 768 - 0 <= 768.
Proof.
  apply (plan_tiles_are_bounded (4 * GiB) 5000 3000 768 768 0 1536 768).
  - vm_compute; reflexivity.
  - vm_compute; right; left; reflexivity.
Defined.

(** A 600x300 image cut in chunks of 256: six tiles. *)
Lemma merge_of_crops_restores_image_witness :
  exists crops out,
    Forall2 (fun b t => crop (solid 600 300 white) b = Ok t)
            (tiles 600 300 256) crops /\
    merge nearest crops (600, 300) = Ok out /\
    same_pixels out (solid 600 300 white).
Proof.
  apply (merge_of_crops_restores_image nearest (solid 600 300 white) 256);
    [split; [reflexivity | split; simpl; lia] | lia].
Defined.

(** Three tiles on a 4x4 destination: one in the first row, two in the
    second. *)
Lemma merge_never_overwrites_witness :
  pasted_boxes nearest [solid 3 2 white; solid 2 2 white; solid 1 1 white]
    (4, 4) = [(0, 0, 3, 2); (0, 2, 2, 4); (2, 2, 3, 3)] /\
  ForallOrdPairs disjoint
    (pasted_boxes nearest [solid 3 2 white; solid 2 2 white; solid 1 1 white]
       (4, 4)) /\
  Forall (inside (4, 4))
    (pasted_boxes nearest [solid 3 2 white; solid 2 2 white; solid 1 1 white]
       (4, 4)).
Proof.
  split; [vm_compute; reflexivity|].
  apply (merge_never_overwrites nearest
           [solid 3 2 white; solid 2 2 white; solid 1 1 white] (4, 4)).
  repeat constructor; simpl; lia.
Defined.

Lemma merge_never_skips_loaded_tiles_witness :
  exists c evs,
    merge_run nearest [solid 3 5 white; solid 2 2 white] (4, 4) = Ok (c, evs) /\
    ~ In Skipped evs.
Proof.
  apply (merge_never_skips_loaded_tiles nearest
           [solid 3 5 white; solid 2 2 white] (4, 4));
    [|simpl; lia | simpl; lia].
  repeat constructor; simpl; lia.
Defined.

(** Half a GiB available, 90% of memory in use: still an image. *)
Lemma safe_resize_never_raises_witness :
  exists out,
    safe_resize nearest starved (solid 256 256 white) (128, 128) = Ok out /\
    size out = (128, 128) /\ closed out = false.
Proof.
  apply (safe_resize_never_raises nearest starved (solid 256 256 white)
           (128, 128));
    [split; [reflexivity | split; simpl; lia] | simpl; lia | simpl; lia].
Defined.

(** Five tiles under sustained pressure: one is dropped, four are kept. *)
Lemma tile_loop_keeps_the_latest_witness :
  exists pending all dropped,
    process_tiles nearest pressured (solid 10240 1 white)
      (SFdiv 53 1024 (float_of_int 5120) (float_of_int 10240))
      (SFdiv 53 1024 (float_of_int 1) (float_of_int 1))
      0 (tiles 10240 1 2048) [] = Ok pending /\
    scaled_tiles nearest pressured (solid 10240 1 white)
      (SFdiv 53 1024 (float_of_int 5120) (float_of_int 10240))
      (SFdiv 53 1024 (float_of_int 1) (float_of_int 1))
      0 (tiles 10240 1 2048) = Ok all /\
    all = dropped ++ pending /\
    length all = length (tiles 10240 1 2048) /\
    length pending = 4%nat /\
    Forall (fun t => 1 <= width t /\ 1 <= height t) pending.
Proof.
  destruct (fmap_Ok (@length image)
              (process_tiles nearest pressured (solid 10240 1 white)
                 (SFdiv 53 1024 (float_of_int 5120) (float_of_int 10240))
                 (SFdiv 53 1024 (float_of_int 1) (float_of_int 1))
                 0 (tiles 10240 1 2048) []) 4%nat)
    as (pending & E & Hlen); [vm_compute; reflexivity|].
  destruct (tile_loop_keeps_the_latest nearest pressured (solid 10240 1 white)
              _ _ _ pending E)
    as (all & dropped & Hall & Happ & Hl & Hs & _ & _).
  exists pending, all, dropped; repeat split; assumption.
Defined.

(** The same five tiles: the level comes out black. *)
Lemma sustained_pressure_gives_black_witness :
  exists pending,
    pending_tiles nearest pressured (solid 10240 1 white) (5120, 1)
      = Ok pending /\
    (length pending <= 4)%nat /\
    Forall (fun t => closed t = true) pending /\
    safe_resize nearest pressured (solid 10240 1 white) (5120, 1) =
      Ok (mkImage 5120 1 (fun _ _ => black) false).
Proof.
  destruct (fmap_Ok (@length image)
              (pending_tiles nearest pressured (solid 10240 1 white) (5120, 1))
              4%nat)
    as (pending & E & _); [vm_compute; reflexivity|].
  exists pending; split; [exact E|].
  apply (sustained_pressure_gives_black nearest pressured
           (solid 10240 1 white) (5120, 1) pending);
    [intros k; vm_compute; reflexivity | simpl; lia | simpl; lia | exact E].
Defined.

(** A 600x300 image asked for at 300x150 with 40% of memory in use. *)
Lemma calm_runs_never_skip_witness :
  exists pending,
    pending_tiles nearest calm (solid 600 300 white) (300, 150) = Ok pending /\
    Forall loaded pending /\
    exists c evs,
      merge_run nearest pending (300, 150) = Ok (c, evs) /\
      ~ In Skipped evs.
Proof.
  destruct (fmap_Ok (@length image)
              (pending_tiles nearest calm (solid 600 300 white) (300, 150))
              1%nat)
    as (pending & E & _); [vm_compute; reflexivity|].
  exists pending; split; [exact E|].
  apply (calm_runs_never_skip nearest calm (solid 600 300 white) (300, 150)
           pending);
    [intros k; vm_compute; reflexivity | simpl; lia | simpl; lia | exact E].
Defined.

(** The third level of a chain on a 256x256 base. *)
Lemma level_size_is_base_over_power_of_two_witness :
  exists chain l,
    process nearest (fun _ => calm)
      [solid 256 256 white; solid 100 100 white; solid 64 64 white]
      = Ok chain /\
    nth_error chain 2 = Some l /\
    target l = (256 / 2 ^ 2, 256 / 2 ^ 2) /\
    size (output l) = target l.
Proof.
  destruct (fmap_Ok (@length level)
              (process nearest (fun _ => calm)
                 [solid 256 256 white; solid 100 100 white; solid 64 64 white])
              3%nat)
    as (chain & E & Hlen); [vm_compute; reflexivity|].
  destruct chain as [|l0 [|l1 [|l2 rest]]]; try discriminate Hlen.
  exists (l0 :: l1 :: l2 :: rest), l2.
  split; [exact E|]; split; [reflexivity|].
  apply (level_size_is_base_over_power_of_two nearest (fun _ => calm)
           (solid 256 256 white) [solid 100 100 white; solid 64 64 white]
           (l0 :: l1 :: l2 :: rest) 2 l2 E eq_refl).
Defined.

(** Two more levels on a 256x256 base, with too little memory. *)
Lemma process_completes_on_large_base_witness :
  exists chain,
    process nearest (fun _ => starved)
      [solid 256 256 white; solid 100 100 white; solid 64 64 white]
      = Ok chain /\
    length chain = 3%nat.
Proof.
  apply (process_completes_on_large_base nearest (fun _ => starved)
           (solid 256 256 white) [solid 100 100 white; solid 64 64 white]).
  - discriminate.
  - repeat constructor; simpl; lia.
  - simpl; lia.
  - simpl; lia.
Defined.

(** Files of 256x256, 128x128 and 64x64. *)
Lemma process_reuses_halved_files_witness :
  process nearest (fun _ => starved)
    [solid 256 256 white; solid 128 128 white; solid 64 64 white] =
  Ok (map (fun f => mkLevel (size f) f f false)
        [solid 256 256 white; solid 128 128 white; solid 64 64 white]).
Proof.
  apply (process_reuses_halved_files nearest (fun _ => starved)
           (solid 256 256 white) [solid 128 128 white; solid 64 64 white]).
  - discriminate.
  - simpl; repeat split.
Defined.

(** macOS on one side, Linux with both tools on the other. *)
Lemma validate_environment_outcomes_witness :
  Config.validate_environment Config.Darwin true (fun _ => true)
    = Config.KeyError /\
  Config.validate_environment Config.Linux true (fun _ => true)
    = Config.Validated.
Proof.
  split.
  - apply (validate_environment_outcomes Config.Darwin true (fun _ => true));
      discriminate.
  - destruct (proj2 (validate_environment_outcomes Config.Linux true
                       (fun _ => true)) _ _ eq_refl eq_refl) as [_ E].
    exact E.
Defined.

Lemma temp_files_are_swept_witness :
  Files.is_swept (Files.temp_name Files.sample_name) = true /\
  Files.is_swept Files.sample_name = false /\
  Files.is_mip_file (Files.temp_name Files.sample_name) = false.
Proof.
  apply (temp_files_are_swept Files.sample_name); reflexivity.
Defined.


